(** * Colorful colorization: dataset source, evaluation driver and the
      quantized colour core.

    The development follows the Python sources:
    - [colorization/data/image_file_or_directory.py] (module [Dataset]),
    - [run_evaluation.py] (module [RunEvaluation]),
    - [colorization/test/test_modules.py] together with the design document
      of the encode / decode core (module [Core]). *)

From Stdlib Require Import String Ascii ZArith List Lia.
From Stdlib Require Reals Lra.
From stdpp Require Import base option list sorting gmap strings.

Local Open Scope string_scope.

(** ** Python exceptions and results *)

Inductive exn : Type :=
| ValueError (msg : string)
| IndexError (msg : string)
| AttributeError (attr : string)
| AxisError (msg : string)
| FileNotFoundError (path : string)
| IsADirectoryError (path : string)
| NotADirectoryError (path : string)
| OSError (msg : string)
| TypeError (msg : string)
| UnboundLocalError (name : string)
| SystemExit (code : Z).

Inductive result (A : Type) : Type :=
| Ok (a : A)
| Raise (e : exn).

Arguments Ok {A} a.
Arguments Raise {A} e.

Global Instance result_ret : MRet result := fun A a => Ok a.

Global Instance result_bind : MBind result := fun A B k r =>
  match r with
  | Ok a => k a
  | Raise e => Raise e
  end.

Global Instance result_fmap : FMap result := fun A B f r =>
  match r with
  | Ok a => Ok (f a)
  | Raise e => Raise e
  end.

Definition is_ok {A : Type} (r : result A) : bool :=
  match r with Ok _ => true | Raise _ => false end.

(** [l[i]] on a Python list: negative indices count from the end, anything
    outside [-len, len) raises [IndexError]. *)
Definition py_getitem {A : Type} (l : list A) (i : Z) : result A :=
  let n := Z.of_nat (length l) in
  let j := if (i <? 0)%Z then (i + n)%Z else i in
  if ((j <? 0)%Z || (n <=? j)%Z)%bool
  then Raise (IndexError "list index out of range")
  else match l !! Z.to_nat j with
       | Some x => Ok x
       | None => Raise (IndexError "list index out of range")
       end.

(** ** numpy arrays

    An [ndarray] is a shape together with its elements in row-major (C)
    order, as numpy stores a freshly read image. *)

Record ndarray (A : Type) : Type := mk_ndarray {
  shape : list nat;
  data : list A
}.

Arguments mk_ndarray {A} shape data.
Arguments shape {A} n.
Arguments data {A} n.

Definition np_size (shp : list nat) : nat := foldr Nat.mul 1 shp.

Definition well_formed {A : Type} (a : ndarray A) : Prop :=
  length (data a) = np_size (shape a).

(** [np.moveaxis(a, -1, 0)]: the last axis becomes the first one, the other
    axes keep their order.  With [c] the extent of the last axis and [m] the
    number of positions of the leading axes, output element [ch * m + i] is
    input element [i * c + ch].  A 0-d array has no axis [-1]. *)
Definition np_moveaxis_last_first {A : Type} (a : ndarray A)
  : result (ndarray A) :=
  match reverse (shape a) with
  | [] => Raise (AxisError "source: axis -1 is out of bounds for array of dimension 0")
  | c :: lead_rev =>
      let lead := reverse lead_rev in
      let m := np_size lead in
      match mapM (fun k => data a !! ((k `mod` m) * c + k `div` m))
                 (seq 0 (c * m)) with
      | Some d => Ok (mk_ndarray (c :: lead) d)
      | None => Raise (ValueError "array data does not match its shape")
      end
  end.

(** [a.astype(dtype)] is elementwise. *)
Definition astype {A B : Type} (cast : A -> B) (a : ndarray A) : ndarray B :=
  mk_ndarray (shape a) (cast <$> data a).

(** ** The file system seen through [os] and [os.path] *)

Inductive node : Type :=
| File (content : list Byte.byte)
| Dir (entries : list string).

(** A file system maps a path to what is stored there; a directory holds its
    entry names in the order in which the operating system enumerates them. *)
Abbreviation filesystem := (gmap string node).

Definition os_path_exists (fs : filesystem) (path : string) : bool :=
  match fs !! path with Some _ => true | None => false end.

Definition os_path_isdir (fs : filesystem) (path : string) : bool :=
  match fs !! path with Some (Dir _) => true | _ => false end.

Definition os_listdir (fs : filesystem) (path : string) : result (list string) :=
  match fs !! path with
  | Some (Dir entries) => Ok entries
  | Some (File _) => Raise (NotADirectoryError path)
  | None => Raise (FileNotFoundError path)
  end.

Definition startswith_sep (s : string) : bool :=
  match s with
  | String "/"%char _ => true
  | _ => false
  end.

Fixpoint endswith_sep (s : string) : bool :=
  match s with
  | EmptyString => false
  | String c EmptyString => Ascii.eqb c "/"%char
  | String _ rest => endswith_sep rest
  end.

(** [posixpath.join(a, b)] *)
Definition os_path_join (a b : string) : string :=
  if startswith_sep b then b
  else if (String.eqb a "" || endswith_sep a)%bool then a +:+ b
  else a +:+ "/" +:+ b.

(** [sorted(names)] on a list of [str]: ascending, character by character. *)
Definition sorted (names : list string) : list string :=
  merge_sort String.le names.

(** ** [colorization/data/image_file_or_directory.py] *)

Module Dataset.

Inductive mode_t : Type := MODE_FILE | MODE_DIR.

(** The instance attributes: [root] and [files] are set in directory mode,
    [file] in single-file mode. *)
Inductive ImageFileOrDirectory : Type :=
| DirDataset (root : string) (files : list string)
| FileDataset (file : string).

Definition mode (self : ImageFileOrDirectory) : mode_t :=
  match self with
  | DirDataset _ _ => MODE_DIR
  | FileDataset _ => MODE_FILE
  end.

Definition __init__ (fs : filesystem) (file_or_root : string)
  : result ImageFileOrDirectory :=
  if negb (os_path_exists fs file_or_root)
  then Raise (ValueError ("'" +:+ file_or_root +:+ "' does not exist"))
  else if os_path_isdir fs file_or_root
  then files ← os_listdir fs file_or_root;
       mret (DirDataset file_or_root (sorted files))
  else mret (FileDataset file_or_root).

Definition __len__ (self : ImageFileOrDirectory) : nat :=
  match self with
  | DirDataset _ files => length files
  | FileDataset _ => 1
  end.

Section Loading.
(** The image routines of scikit-image and the float32 rounding of numpy
    are external: [imread_decode] is what [io.imread] makes of a file's
    bytes, [color_rgb2lab] is [skimage.color.rgb2lab], [to_float32] is the
    per-element cast behind [astype(np.float32)]. *)
Context {U8 F64 F32 : Type}.
Variable imread_decode : list Byte.byte -> result (ndarray U8).
Variable color_rgb2lab : ndarray U8 -> result (ndarray F64).
Variable to_float32 : F64 -> F32.

Definition io_imread (fs : filesystem) (path : string) : result (ndarray U8) :=
  match fs !! path with
  | Some (File content) => imread_decode content
  | Some (Dir _) => Raise (IsADirectoryError path)
  | None => Raise (FileNotFoundError path)
  end.

Definition _load_image (fs : filesystem) (path : string)
  : result (ndarray F32) :=
  rgb ← io_imread fs path;
  img ← color_rgb2lab rgb;
  img ← np_moveaxis_last_first img;
  mret (astype to_float32 img).

Definition __getitem__ (fs : filesystem) (self : ImageFileOrDirectory)
  (index : Z) : result (ndarray F32 * string) :=
  match self with
  | DirDataset root files =>
      name ← py_getitem files index;
      let path := os_path_join root name in
      img ← _load_image fs path;
      mret (img, path)
  | FileDataset file =>
      img ← _load_image fs file;
      mret (img, file)
  end.
End Loading.

(** The indices Python accepts on a sequence of [len(self)] items. *)
Definition valid_index (self : ImageFileOrDirectory) (index : Z) : Prop :=
  (- Z.of_nat (__len__ self) <= index < Z.of_nat (__len__ self))%Z.

(** The path [__getitem__] hands to [_load_image]. *)
Definition item_path (self : ImageFileOrDirectory) (index : Z) : result string :=
  match self with
  | DirDataset root files => os_path_join root <$> py_getitem files index
  | FileDataset file => Ok file
  end.

End Dataset.

(** A small file system and stand-ins for the external image routines, used
    to run the dataset on concrete inputs. *)
Definition demo_fs : filesystem :=
  {[ "imgs" := Dir ["b.png"; "a.png"];
     "imgs/a.png" := File [Byte.x01; Byte.x02; Byte.x03];
     "imgs/b.png" := File [Byte.x04; Byte.x05; Byte.x06];
     "photo.png" := File [Byte.x01; Byte.x02; Byte.x03] ]}.

(** The same directory enumerated by the operating system in another order. *)
Definition demo_fs_reordered : filesystem :=
  <["imgs" := Dir ["a.png"; "b.png"]]> demo_fs.

Definition demo_decode (content : list Byte.byte) : result (ndarray Z) :=
  match content with
  | [r; g; b] =>
      Ok (mk_ndarray [1; 1; 3]
            (Z.of_N (Byte.to_N r) :: Z.of_N (Byte.to_N g) :: Z.of_N (Byte.to_N b) :: nil))
  | _ => Raise (OSError "cannot identify image file")
  end.

Definition demo_rgb2lab (a : ndarray Z) : result (ndarray Z) :=
  match last (shape a) with
  | Some 3 => Ok a
  | _ => Raise (ValueError "the input array must have a shape == (.., ..,[ ..,] 3)")
  end.

(** ** [run_evaluation.py] *)

Module RunEvaluation.

(** The Python values an [argparse.Namespace] of this script can hold. *)
Inductive value : Type :=
| VNone
| VStr (s : string)
| VInt (z : Z)
| VBool (b : bool).

Definition is_None (v : value) : bool :=
  match v with VNone => true | _ => false end.

Definition truthy (v : value) : bool :=
  match v with
  | VNone => false
  | VStr s => negb (String.eqb s "")
  | VInt z => negb (z =? 0)%Z
  | VBool b => b
  end.

(** [args.name]: a namespace is the dictionary of its attributes. *)
Definition getattr (args : gmap string value) (name : string) : result value :=
  match args !! name with
  | Some v => Ok v
  | None => Raise (AttributeError name)
  end.

(** *** The argument parser *)

Inductive action_t : Type := store | store_true.

Record argument : Type := mk_argument {
  option_string : string;
  arg_default : value;
  arg_action : action_t;
  arg_required : bool
}.

Fixpoint lstrip_dashes (s : string) : string :=
  match s with
  | String "-"%char rest => lstrip_dashes rest
  | _ => s
  end.

Fixpoint dashes_to_underscores (s : string) : string :=
  match s with
  | EmptyString => EmptyString
  | String c rest =>
      String (if Ascii.eqb c "-"%char then "_"%char else c) (dashes_to_underscores rest)
  end.

(** argparse derives the attribute name from the long option string. *)
Definition dest (a : argument) : string :=
  dashes_to_underscores (lstrip_dashes (option_string a)).

(** The [add_argument] calls, in source order. *)
Definition parser : list argument :=
  [ mk_argument "--config" VNone store true;
    mk_argument "--input-image" VNone store false;
    mk_argument "--input-dir" VNone store false;
    mk_argument "--output-image" VNone store false;
    mk_argument "--output-dir" VNone store false;
    mk_argument "--input-size" (VInt 224) store false;
    mk_argument "--pretrain-proto" VNone store false;
    mk_argument "--pretrain-model" VNone store false;
    mk_argument "--checkpoint" VNone store false;
    mk_argument "--checkpoint-dir" VNone store false;
    mk_argument "--verbose" (VBool false) store_true false ].

Definition defaults (p : list argument) : gmap string value :=
  list_to_map ((fun a => (dest a, arg_default a)) <$> p).

(** The attributes every namespace returned by [parse_args] has. *)
Definition namespace_attributes : gset string :=
  list_to_set (dest <$> parser).

(** [parse_args] restricted to command lines made of full option strings,
    each [store] option followed by its value; an unknown option or a
    missing value makes argparse print the usage and exit with status 2.
    The other forms argparse understands (unambiguous prefixes of an option,
    [--opt=value]) and its refusal of values that look like options are not
    covered. *)
Fixpoint parse_options (p : list argument) (argv : list string)
    (args : gmap string value) : result (gmap string value) :=
  match argv with
  | [] => Ok args
  | tok :: rest =>
      if (String.eqb tok "-h" || String.eqb tok "--help")%bool
      then Raise (SystemExit 0)
      else
        match List.find (fun a => String.eqb (option_string a) tok) p with
        | None => Raise (SystemExit 2)
        | Some a =>
            match arg_action a with
            | store_true => parse_options p rest (<[dest a := VBool true]> args)
            | store =>
                match rest with
                | [] => Raise (SystemExit 2)
                | v :: rest' => parse_options p rest' (<[dest a := VStr v]> args)
                end
            end
        end
  end.

Definition parse_args (argv : list string) : result (gmap string value) :=
  args ← parse_options parser argv (defaults parser);
  if forallb (fun a => (negb (arg_required a)
                        || negb (is_None (default VNone (args !! dest a))))%bool) parser
  then Ok args
  else Raise (SystemExit 2).

(** *** Argument validation (the [if] statements of the main block) *)

Definition _err {A : Type} (msg : string) : result A := Raise (ValueError msg).

Definition attr_is_none (args : gmap string value) (name : string) : result bool :=
  v ← getattr args name; mret (is_None v).

Definition attr_is_not_none (args : gmap string value) (name : string) : result bool :=
  v ← getattr args name; mret (negb (is_None v)).

(** [a and b] and [a or b] on booleans: [b] is evaluated only if needed. *)
Definition py_and (a b : result bool) : result bool :=
  x ← a; if x : bool then b else mret false.

Definition py_or (a b : result bool) : result bool :=
  x ← a; if x : bool then mret true else b.

Definition when (c : bool) (r : result unit) : result unit :=
  if c then r else mret tt.

Definition validate_inputs (args : gmap string value) : result unit :=
  a ← attr_is_none args "input_image";
  b ← attr_is_none args "input_dir";
  _ ← when (Bool.eqb a b)
        (_err "either --input-image OR --input-dir must be specified");
  c ← py_and (attr_is_not_none args "input_image")
             (attr_is_none args "output_image");
  if c : bool
  then _err "--input-image and --output-image must be specified together"
  else
    d ← py_and (attr_is_not_none args "input_dir")
               (attr_is_none args "output_dir");
    when d (_err "--input-dir and --output-dir must be specified together").

Definition validate_pretrain (args : gmap string value) : result unit :=
  a ← attr_is_none args "pretrain_proto";
  b ← attr_is_none args "pretrain_model";
  when (negb (Bool.eqb a b))
    (_err "--pretrain-proto and --pretrain-model must be specified together").

Definition checkpoint_conflict_message : string :=
  "--checkpoint and --checkpoint-dir may not be specified together".

Definition validate_checkpoint (args : gmap string value) : result unit :=
  c ← py_and (attr_is_not_none args "checkpoint")
             (attr_is_not_none args "checkoint_dir");
  when c (_err checkpoint_conflict_message).

Definition select_source (args : gmap string value) : result (bool * bool) :=
  pretrained ← attr_is_not_none args "pretrain_proto";
  checkpointed ← py_or (attr_is_not_none args "checkpoint")
                       (attr_is_not_none args "checkpoint_dir");
  _ ← when (Bool.eqb pretrained checkpointed)
        (_err "either pretrained network OR checkpoint must be specified");
  mret (pretrained, checkpointed).

Definition validate (args : gmap string value) : result (bool * bool) :=
  _ ← validate_inputs args;
  _ ← validate_pretrain args;
  _ ← validate_checkpoint args;
  select_source args.

(** *** The main block

    The script's effects on the outside world are recorded as a trace of
    events; what the outside world answers is given by an [environment]. *)

Inductive event : Type :=
| EvGetConfig (path : value)
| EvInitFromCaffe (proto model : value)
| EvFindLatestCheckpoint (dir : value)
| EvModelLoad (path : value)
| EvMkdir (dir : value)
| EvPrint (line : string)
| EvPredictImage (input size output : value).

(** [predict_image] stands for [_predict_image], whose body consists of
    calls into the image library and the model only. *)
Record environment : Type := mk_environment {
  config_get_config : value -> result unit;
  model_init_from_caffe : value -> value -> result unit;
  model_find_latest_checkpoint : value -> result value;
  model_load : value -> result unit;
  env_path_exists : value -> result bool;
  env_mkdir : value -> result unit;
  env_listdir : value -> result (list string);
  predict_image : value -> value -> value -> result unit
}.

Inductive io (A : Type) : Type :=
| IO (trace : list event) (outcome : result A).

Arguments IO {A} trace outcome.

Definition trace {A : Type} (m : io A) : list event :=
  match m with IO t _ => t end.

Definition outcome {A : Type} (m : io A) : result A :=
  match m with IO _ r => r end.

Global Instance io_ret : MRet io := fun A a => IO [] (Ok a).

Global Instance io_bind : MBind io := fun A B k m =>
  match m with
  | IO t (Ok a) => match k a with IO t' r => IO (t ++ t') r end
  | IO t (Raise e) => IO t (Raise e)
  end.

(** A pure computation of the script itself. *)
Definition lift {A : Type} (r : result A) : io A := IO [] r.

(** A call into the outside world. *)
Definition call {A : Type} (ev : event) (answer : result A) : io A := IO [ev] answer.

Definition py_path_join (a : value) (b : string) : result value :=
  match a with
  | VStr a => Ok (VStr (os_path_join a b))
  | _ => Raise (TypeError "expected str, bytes or os.PathLike object")
  end.

Fixpoint for_each {A : Type} (l : list A) (body : A -> io unit) : io unit :=
  match l with
  | [] => mret tt
  | x :: rest => _ ← body x; for_each rest body
  end.

Definition load_model (env : environment) (args : gmap string value)
    (pretrained checkpointed : bool) : io unit :=
  config ← lift (getattr args "config");
  _ ← call (EvGetConfig config) (config_get_config env config);
  _ ← (if pretrained
       then proto ← lift (getattr args "pretrain_proto");
            model ← lift (getattr args "pretrain_model");
            call (EvInitFromCaffe proto model) (model_init_from_caffe env proto model)
       else mret tt);
  if checkpointed
  then checkpoint ← lift (getattr args "checkpoint");
       checkpoint_path ←
         (if negb (is_None checkpoint)
          then mret checkpoint
          else checkpoint_dir ← lift (getattr args "checkpoint_dir");
               if negb (is_None checkpoint_dir)
               then call (EvFindLatestCheckpoint checkpoint_dir)
                         (model_find_latest_checkpoint env checkpoint_dir)
               else lift (Raise (UnboundLocalError "checkpoint_path")));
       call (EvModelLoad checkpoint_path) (model_load env checkpoint_path)
  else mret tt.

Definition predict_images (env : environment) (args : gmap string value) : io unit :=
  input_image ← lift (getattr args "input_image");
  if negb (is_None input_image)
  then input_size ← lift (getattr args "input_size");
       output_image ← lift (getattr args "output_image");
       call (EvPredictImage input_image input_size output_image)
            (predict_image env input_image input_size output_image)
  else
    input_dir ← lift (getattr args "input_dir");
    if negb (is_None input_dir)
    then output_dir ← lift (getattr args "output_dir");
         present ← lift (env_path_exists env output_dir);
         _ ← (if negb present
              then call (EvMkdir output_dir) (env_mkdir env output_dir)
              else mret tt);
         images ← lift (env_listdir env input_dir);
         for_each images (fun image =>
           verbose ← lift (getattr args "verbose");
           _ ← (if truthy verbose
                then call (EvPrint ("processing '" +:+ image +:+ "'")) (Ok tt)
                else mret tt);
           in_image ← lift (py_path_join input_dir image);
           out_image ← lift (py_path_join output_dir image);
           input_size ← lift (getattr args "input_size");
           call (EvPredictImage in_image input_size out_image)
                (predict_image env in_image input_size out_image))
    else mret tt.

(** The main block from the parsed arguments on. *)
Definition main (env : environment) (args : gmap string value) : io unit :=
  sources ← lift (validate args);
  _ ← load_model env args sources.1 sources.2;
  predict_images env args.

(** The script run on a command line. *)
Definition run (env : environment) (argv : list string) : io unit :=
  args ← lift (parse_args argv);
  main env args.

(** A world in which every external call succeeds. *)
Definition demo_environment : environment :=
  mk_environment
    (fun _ => Ok tt) (fun _ _ => Ok tt) (fun _ => Ok (VStr "ckpt/latest.tar"))
    (fun _ => Ok tt) (fun _ => Ok true) (fun _ => Ok tt)
    (fun _ => Ok ["a.png"; "b.png"]) (fun _ _ _ => Ok tt).

(** The namespace of
    [--config c.json --input-image in.png --output-image out.png
     --checkpoint model.tar]. *)
Definition demo_args : gmap string value :=
  <["checkpoint" := VStr "model.tar"]>
    (<["output_image" := VStr "out.png"]>
       (<["input_image" := VStr "in.png"]>
          (<["config" := VStr "c.json"]> (defaults parser)))).

End RunEvaluation.

(** ** The quantized colour core (gamut table, soft encoder, annealed decoder)

    The modules [colorization.cielab], [colorization.modules.soft_encode_ab]
    and [colorization.modules.annealed_mean_decode_q] are only imported by
    [test_modules.py]; their behaviour is taken from the design document,
    over the real numbers. *)

Module Core.
Import Reals Lra.
Local Open Scope R_scope.

Global Instance Rlt_decision : RelDecision Rlt := Rlt_dec.
Global Instance Req_decision : EqDecision R := Req_dec_T.

(** Modelled from the spec: the sums [Σ] of sections 4.2 to 4.4 (missing:
    the tensor reductions of the absent modules). *)
Definition Rsum (l : list R) : R := foldr Rplus 0 l.

(** Modelled from the spec: the chrominance sample of section 3, a pair
    [(a, b)] of reals (missing: the array type of [colorization.cielab]). *)
Abbreviation point := (R * R)%type.

(** Modelled from the spec: the Gamut Table of sections 3 and 4.1, an
    ordered collection of bins in which bin [i] is the [i]-th entry and
    carries its center (missing: [colorization.cielab.DEFAULT_CIELAB]). *)
Abbreviation GamutTable := (list point).

(** Modelled from the spec: [size() -> N] of section 4.1. *)
Definition size (table : GamutTable) : nat := length table.

(** Modelled from the spec: [centerOf(index)] of section 4.1. *)
Definition centerOf (table : GamutTable) (index : nat) : option point :=
  table !! index.

(** Modelled from the spec: the Euclidean distance in the (a, b) plane used
    by [nearestK] (section 4.1). *)
Definition distance (p q : point) : R :=
  sqrt ((p.1 - q.1)² + (p.2 - q.2)²).

(** Modelled from the spec: the order of [nearestK]'s result, by distance
    with ties broken by ascending index (section 4.1). *)
Definition nearer (x y : nat * R) : Prop :=
  x.2 < y.2 \/ (x.2 = y.2 /\ (x.1 <= y.1)%nat).

Global Instance nearer_dec : RelDecision nearer.
Proof. intros x y. unfold nearer. apply _. Defined.

(** Modelled from the spec: [nearestK(sample, k)] of section 4.1, the [k]
    bins closest to the sample as (index, distance) pairs; all [N] bins
    when [k > N]. *)
Definition nearestK (table : GamutTable) (sample : point) (k : nat)
  : list (nat * R) :=
  take k (merge_sort nearer (imap (fun i c => (i, distance sample c)) table)).

(** Modelled from the spec: the Gaussian kernel
    [weight(d) = exp(-d² / (2σ²))] of section 4.2. *)
Definition gaussian (sigma d : R) : R := exp (- d² / (2 * sigma²)).

(** Modelled from the spec: "assign 0 to all non-selected bins" (section
    4.2): a vector of [n] zeros with the given weights written at their
    indices. *)
Definition scatter (n : nat) (weights : list (nat * R)) : list R :=
  foldr (fun iw acc => <[iw.1 := iw.2]> acc) (replicate n 0) weights.

(** Modelled from the spec: [encode(sample)] of section 4.2 (missing:
    [colorization.modules.soft_encode_ab.SoftEncodeAB]): weigh the [k]
    nearest bins by the Gaussian kernel, normalise the weights to sum 1,
    zero elsewhere. *)
Definition encode (table : GamutTable) (k : nat) (sigma : R) (sample : point)
  : list R :=
  let weights := (fun id => (id.1, gaussian sigma id.2)) <$> nearestK table sample k in
  let total := Rsum (snd <$> weights) in
  scatter (size table) ((fun iw => (iw.1, iw.2 / total)) <$> weights).

(** Modelled from the spec: the number of nonzero entries of a
    distribution ("at most k nonzero entries", sections 4.2 and 8). *)
Definition count_nonzero (q : list R) : nat :=
  length (filter (fun x => x <> 0) q).

(** Modelled from the spec: the maximum score that step 1 of section 4.3
    subtracts before exponentiation. *)
Definition Rmax_list (l : list R) : R :=
  match l with
  | [] => 0
  | x :: rest => foldr Rmax x rest
  end.

(** Modelled from the spec: step 1 of section 4.3, exponential
    normalisation [p_i = exp(s_i) / Σ exp(s_j)] with the maximum score
    subtracted first. *)
Definition softmax (scores : list R) : list R :=
  let m := Rmax_list scores in
  let e := (fun s => exp (s - m)) <$> scores in
  let z := Rsum e in
  (fun x => x / z) <$> e.

(** Modelled from the spec: "the single bin with maximum [p_i] (ties broken
    by lowest index)" of section 4.3, step 3: a left-to-right scan that
    replaces the current best only by a strictly larger entry. *)
Fixpoint argmax_from (best_index : nat) (best : R) (i : nat) (l : list R) : nat :=
  match l with
  | [] => best_index
  | x :: rest =>
      if decide (best < x)
      then argmax_from i x (S i) rest
      else argmax_from best_index best (S i) rest
  end.

(** Modelled from the spec: the selected bin of section 4.3, step 3. *)
Definition argmax (p : list R) : nat :=
  match p with
  | [] => 0%nat
  | x :: rest => argmax_from 0 x 1 rest
  end.

(** Modelled from the spec: "assigning it weight 1 and all others 0"
    (section 4.3, step 3). *)
Definition one_hot (n i : nat) : list R := <[i := 1]> (replicate n 0).

(** Modelled from the spec: steps 2 and 3 of section 4.3, the reweighting
    [q_i = p_i^(1/T) / Σ_j p_j^(1/T)] for [T > 0] and the one-hot vector at
    the arg-max for [T = 0]. *)
Definition anneal (T : R) (p : list R) : list R :=
  if decide (T = 0)
  then one_hot (length p) (argmax p)
  else
    let w := (fun x => Rpower x (1 / T)) <$> p in
    let z := Rsum w in
    (fun x => x / z) <$> w.

(** Modelled from the spec: step 4 of section 4.3, the weighted sum of the
    bin centers. *)
Definition expectation (table : GamutTable) (q : list R) : point :=
  (Rsum (zip_with (fun qi c => qi * c.1) q table),
   Rsum (zip_with (fun qi c => qi * c.2) q table)).

(** Modelled from the spec: the Annealed Decoder of section 4.3, configured
    by the table and the temperature (missing:
    [colorization.modules.annealed_mean_decode_q.AnnealedMeanDecodeQ]). *)
Record decoder : Type := mk_decoder {
  dec_table : GamutTable;
  dec_T : R
}.

(** Modelled from the spec: construction of the decoder; "[T < 0] is
    invalid and must be rejected explicitly" (section 4.3), "with a
    descriptive failure; never silently clamped" (section 7). *)
Definition AnnealedMeanDecodeQ (table : GamutTable) (T : R) : result decoder :=
  if decide (T < 0)
  then Raise (ValueError "temperature T must not be negative")
  else Ok (mk_decoder table T).

(** Modelled from the spec: the decoder applied to the raw scores of one
    pixel (section 4.3, steps 1 to 4). *)
Definition forward (d : decoder) (rawScores : list R) : point :=
  expectation (dec_table d) (anneal (dec_T d) (softmax rawScores)).

(** Modelled from the spec: the decoder applied to every pixel of a 2-D
    score map (section 4.3, "no cross-pixel dependency"). *)
Definition forward_image (d : decoder) (scores : list (list (list R)))
  : list (list point) :=
  map (map (forward d)) scores.

(** Modelled from the spec: the contract
    [decode(rawScores, temperature T) -> sample] of section 4.3. *)
Definition decode (table : GamutTable) (rawScores : list R) (T : R)
  : result point :=
  d ← AnnealedMeanDecodeQ table T;
  mret (forward d rawScores).

(** Modelled from the spec: the gamut [{(0,0), (10,0), (0,10)}] of the
    concrete scenario of section 8. *)
Definition demo_table : GamutTable := [(0, 0); (10, 0); (0, 10)].




End Core.

(** ** Auxiliary notions for the statements about [run_evaluation.py] *)

(** An option was given on the command line: its attribute is not [None]. *)
Definition supplied (args : gmap string RunEvaluation.value) (name : string) : bool :=
  match args !! name with
  | Some v => negb (RunEvaluation.is_None v)
  | None => false
  end.

(** The events of one loop iteration over [image] in directory mode. *)
Definition iteration_events (verbose : bool) (input_dir output_dir : string)
    (input_size : RunEvaluation.value) (image : string)
  : list RunEvaluation.event :=
  ((if verbose
    then [RunEvaluation.EvPrint ("processing '" +:+ image +:+ "'")]
    else []) ++
   [RunEvaluation.EvPredictImage
      (RunEvaluation.VStr (os_path_join input_dir image)) input_size
      (RunEvaluation.VStr (os_path_join output_dir image))])%list.

(** The namespace of
    [--config c.json --input-dir in --output-dir out --checkpoint-dir ckpt
     --verbose]. *)
Definition demo_args_directory : gmap string RunEvaluation.value :=
  <["verbose" := RunEvaluation.VBool true]>
    (<["checkpoint_dir" := RunEvaluation.VStr "ckpt"]>
       (<["output_dir" := RunEvaluation.VStr "out"]>
          (<["input_dir" := RunEvaluation.VStr "in"]>
             (<["config" := RunEvaluation.VStr "c.json"]>
                (RunEvaluation.defaults RunEvaluation.parser))))).

(** Events that load model weights from a checkpoint file. *)
Definition is_model_load (ev : RunEvaluation.event) : bool :=
  match ev with
  | RunEvaluation.EvModelLoad _ => true
  | _ => false
  end.

(** Events of the prediction phase. *)
Definition is_prediction_event (ev : RunEvaluation.event) : bool :=
  match ev with
  | RunEvaluation.EvMkdir _
  | RunEvaluation.EvPrint _
  | RunEvaluation.EvPredictImage _ _ _ => true
  | _ => false
  end.

(** ** [_predict_image] of [run_evaluation.py] *)

Module PredictImage.
Import RunEvaluation.

(** [h, w, _ = a.shape]: unpacking needs exactly three extents. *)
Definition unpack_shape3 {A : Type} (a : ndarray A) : result (nat * nat * nat) :=
  match shape a with
  | [h; w; c] => Ok (h, w, c)
  | [] => Raise (ValueError "not enough values to unpack (expected 3, got 0)")
  | [_] => Raise (ValueError "not enough values to unpack (expected 3, got 1)")
  | [_; _] => Raise (ValueError "not enough values to unpack (expected 3, got 2)")
  | _ => Raise (ValueError "too many values to unpack (expected 3)")
  end.

(** [a[:, :, :1]]: the first entry along the third axis, which stays an axis
    (of extent 1, or 0 if it was empty); fewer than three axes cannot take
    three indices. *)
Definition np_slice_first_channel {A : Type} (a : ndarray A) : result (ndarray A) :=
  match shape a with
  | h :: w :: c :: rest =>
      let inner := np_size rest in
      let c' := Nat.min 1 c in
      Ok (mk_ndarray (h :: w :: c' :: rest)
            (p ← seq 0 (h * w);
             take (c' * inner) (drop (p * (c * inner)) (data a))))
  | _ => Raise (IndexError "too many indices for array")
  end.

(** [np.atleast_3d]: a 1-D array of [n] entries is viewed as [1 x n x 1], a
    2-D array of [m x n] as [m x n x 1]; the elements stay in place. *)
Definition np_atleast_3d {A : Type} (a : ndarray A) : ndarray A :=
  match shape a with
  | [] => mk_ndarray [1; 1; 1] (data a)
  | [n] => mk_ndarray [1; n; 1] (data a)
  | [m; n] => mk_ndarray [m; n; 1] (data a)
  | _ => a
  end.

(** [np.dstack((a, b))]: concatenation along the third axis, every other
    extent has to agree. *)
Definition np_dstack {A : Type} (a b : ndarray A) : result (ndarray A) :=
  match shape (np_atleast_3d a), shape (np_atleast_3d b) with
  | h :: w :: c1 :: rest, h' :: w' :: c2 :: rest' =>
      if negb (Nat.eqb (length rest) (length rest'))
      then Raise (ValueError "all the input arrays must have same number of dimensions")
      else if decide (h = h' /\ w = w' /\ rest = rest')
      then
        let inner := np_size rest in
        Ok (mk_ndarray (h :: w :: (c1 + c2) :: rest)
              (p ← seq 0 (h * w);
               (take (c1 * inner) (drop (p * (c1 * inner)) (data a)) ++
                take (c2 * inner) (drop (p * (c2 * inner)) (data b)))%list))
      else Raise (ValueError "all the input array dimensions except for the concatenation axis must match exactly")
  | _, _ => Raise (ValueError "all the input arrays must have same number of dimensions")
  end.

Section Predict.
(** The helpers of [colorization.util.image] and the model are external:
    [resize] works on arrays of any element type, [model_predict] is
    [model.predict] of the global [model]. *)
Context {Px F T : Type}.
Variable imread : value -> result (ndarray Px).
Variable imsave : value -> ndarray Px -> result unit.
Variable resize : forall A : Type, ndarray A -> value -> value -> result (ndarray A).
Variable rgb_to_lab : ndarray Px -> result (ndarray F).
Variable lab_to_rgb : ndarray F -> result (ndarray Px).
Variable numpy_to_torch : ndarray F -> result T.
Variable torch_to_numpy : T -> result (ndarray F).
Variable model_predict : T -> result T.

Definition _predict_image (input_image input_size output_image : value)
  : result unit :=
  img_rgb ← imread input_image;
  img_rgb_resized ← resize Px img_rgb input_size input_size;
  orig ← unpack_shape3 img_rgb;
  let h_orig := orig.1.1 in
  let w_orig := orig.1.2 in
  img_lab ← rgb_to_lab img_rgb;
  img_lab_resized ← rgb_to_lab img_rgb_resized;
  l_resized ← np_slice_first_channel img_lab_resized;
  l_batch ← numpy_to_torch l_resized;
  prediction ← model_predict l_batch;
  ab_pred ← torch_to_numpy prediction;
  l_orig ← np_slice_first_channel img_lab;
  ab_orig ← resize F ab_pred (VInt (Z.of_nat h_orig)) (VInt (Z.of_nat w_orig));
  img_lab_pred ← np_dstack l_orig ab_orig;
  img_rgb_pred ← lab_to_rgb img_lab_pred;
  imsave output_image img_rgb_pred.
End Predict.

(** Stand-ins for the external routines on a one-pixel image: the image is
    read as [1 x 1 x 3], colour conversion keeps the numbers, the model
    answers two chrominance values per pixel, resizing returns its input. *)
Definition demo_imread (path : value) : result (ndarray Z) :=
  Ok (mk_ndarray [1; 1; 3] [50; 60; 70]%Z).

Definition demo_imsave (path : value) (img : ndarray Z) : result unit := Ok tt.

Definition demo_resize (A : Type) (a : ndarray A) (h w : value) : result (ndarray A) :=
  Ok a.

Definition demo_convert (a : ndarray Z) : result (ndarray Z) := Ok a.

Definition demo_model (l : ndarray Z) : result (ndarray Z) :=
  Ok (mk_ndarray [1; 1; 2] [7; 8]%Z).

(** A grey-scale image reads as a two-axis array. *)
Definition demo_imread_gray (path : value) : result (ndarray Z) :=
  Ok (mk_ndarray [1; 2] [50; 60]%Z).

End PredictImage.

(** ** The sample generator of [colorization/test/test_modules.py] *)

Module TestModules.

Definition _SAMPLE_BATCH_SIZE : nat := 32.
Definition _SAMPLE_HEIGHT : nat := 100.
Definition _SAMPLE_WIDTH : nat := 200.

(** [np.arange(start, stop, 1)]: the integers from [start] up to, not
    including, [stop]; as float32 values they are exact. *)
Definition np_arange (start stop : Z) : list Z :=
  (fun i => (start + Z.of_nat i)%Z) <$> seq 0 (Z.to_nat (stop - start)).

Definition _AB_SAFE_RANGE : list Z := np_arange 0 80.

(** [np.random.seed(seed)] accepts an integer seed from 0 to 2**32 - 1 and
    raises [ValueError] for any other. *)
Definition np_random_seed (seed : Z) : result unit :=
  if ((0 <=? seed) && (seed <? 2 ^ 32))%Z
  then Ok tt
  else Raise (ValueError "Seed must be between 0 and 2**32 - 1").

Section Random.
(** numpy's global generator is external: [draws seed k] is the [k]-th
    number it delivers after [np.random.seed(seed)]. *)
Variable draws : Z -> nat -> nat.

(** [np.random.choice(a, size=size)] on the generator seeded with [seed]:
    every entry of the result is an entry of [a], picked by the generator. *)
Definition np_random_choice {A : Type} (seed : Z) (a : list A) (size : list nat)
  : result (ndarray A) :=
  match a with
  | [] =>
      if Nat.eqb (np_size size) 0
      then Ok (mk_ndarray size [])
      else Raise (ValueError "'a' cannot be empty unless no samples are taken")
  | x :: _ =>
      Ok (mk_ndarray size
            ((fun k => nth (draws seed k `mod` length a) a x)
               <$> seq 0 (np_size size)))
  end.

(** [torch.from_numpy] keeps shape and elements. *)
Definition _random_ab (seed : Z) : result (ndarray Z) :=
  _ ← np_random_seed seed;
  np_random_choice seed _AB_SAFE_RANGE
    [_SAMPLE_BATCH_SIZE; 2; _SAMPLE_HEIGHT; _SAMPLE_WIDTH].
End Random.

(** A stand-in for the generator. *)
Definition demo_draws (seed : Z) (k : nat) : nat := k.

End TestModules.

(** * Properties *)

(** ** Sanity checks of the library models *)

Example py_getitem_last : py_getitem [10; 20; 30]%Z (-1) = Ok 30%Z.
Proof. reflexivity. Qed.

Example py_getitem_oob : is_ok (py_getitem [10; 20; 30]%Z 3) = false.
Proof. reflexivity. Qed.

Example moveaxis_2x1x3 :
  np_moveaxis_last_first (mk_ndarray [2; 1; 3] [1; 2; 3; 4; 5; 6]%Z)
  = Ok (mk_ndarray [3; 2; 1] [1; 4; 2; 5; 3; 6]%Z).
Proof. reflexivity. Qed.

Example join_plain : os_path_join "imgs" "a.png" = "imgs/a.png".
Proof. reflexivity. Qed.

Example join_trailing : os_path_join "imgs/" "a.png" = "imgs/a.png".
Proof. reflexivity. Qed.

Example sorted_names : sorted ["b.png"; "a.png"; "B.png"; "a"] = ["B.png"; "a"; "a.png"; "b.png"].
Proof. reflexivity. Qed.

Example demo_init_dir :
  Dataset.__init__ demo_fs "imgs" = Ok (Dataset.DirDataset "imgs" ["a.png"; "b.png"]).
Proof. vm_compute. reflexivity. Qed.

Example demo_getitem_dir :
  Dataset.__getitem__ demo_decode demo_rgb2lab id demo_fs
    (Dataset.DirDataset "imgs" ["a.png"; "b.png"]) 1
  = Ok (mk_ndarray [3; 1; 1] [4; 5; 6]%Z, "imgs/b.png").
Proof. vm_compute. reflexivity. Qed.

Example demo_init_missing :
  Dataset.__init__ demo_fs "nope" = Raise (ValueError "'nope' does not exist").
Proof. vm_compute. reflexivity. Qed.

(** ** Python list indexing *)

Lemma py_getitem_nat {A : Type} (l : list A) (i : nat) (x : A) :
  l !! i = Some x -> py_getitem l (Z.of_nat i) = Ok x.
Proof.
  intros Hx. pose proof (lookup_lt_Some _ _ _ Hx) as Hlt.
  unfold py_getitem.
  destruct (Z.ltb_spec (Z.of_nat i) 0) as [Hneg|_]; [lia|].
  destruct (Z.ltb_spec (Z.of_nat i) 0) as [Hneg|_]; [lia|].
  destruct (Z.leb_spec (Z.of_nat (length l)) (Z.of_nat i)) as [Hge|_]; [lia|].
  simpl. rewrite Nat2Z.id, Hx. reflexivity.
Qed.

Lemma py_getitem_valid {A : Type} (l : list A) (i : Z) :
  (- Z.of_nat (length l) <= i < Z.of_nat (length l))%Z ->
  exists x, py_getitem l i = Ok x /\
            l !! Z.to_nat (if (i <? 0)%Z then i + Z.of_nat (length l) else i)%Z = Some x.
Proof.
  intros Hrange. unfold py_getitem.
  set (j := (if (i <? 0)%Z then (i + Z.of_nat (length l))%Z else i)).
  assert (0 <= j < Z.of_nat (length l))%Z as Hj.
  { subst j. destruct (Z.ltb_spec i 0); lia. }
  destruct (Z.ltb_spec j 0) as [Hneg|_]; [lia|].
  destruct (Z.leb_spec (Z.of_nat (length l)) j) as [Hge|_]; [lia|].
  simpl. destruct (lookup_lt_is_Some_2 l (Z.to_nat j)) as [x Hx]; [lia|].
  exists x. rewrite Hx. split; reflexivity.
Qed.

Lemma py_getitem_invalid {A : Type} (l : list A) (i : Z) :
  ~ (- Z.of_nat (length l) <= i < Z.of_nat (length l))%Z ->
  py_getitem l i = Raise (IndexError "list index out of range").
Proof.
  intros Hrange. unfold py_getitem.
  destruct (Z.ltb_spec i 0) as [Hneg|Hpos].
  - destruct (Z.ltb_spec (i + Z.of_nat (length l)) 0) as [_|Hge]; [reflexivity|].
    destruct (Z.leb_spec (Z.of_nat (length l)) (i + Z.of_nat (length l))); [reflexivity|lia].
  - destruct (Z.ltb_spec i 0) as [?|_]; [lia|].
    destruct (Z.leb_spec (Z.of_nat (length l)) i); [reflexivity|lia].
Qed.

(** ** [sorted] *)

Lemma sorted_Sorted (names : list string) : Sorted String.le (sorted names).
Proof. apply (Sorted_merge_sort String.le). Qed.

Lemma sorted_StronglySorted (names : list string) :
  StronglySorted String.le (sorted names).
Proof. apply (StronglySorted_merge_sort String.le). Qed.

Lemma sorted_Permutation (names : list string) : sorted names ≡ₚ names.
Proof. apply (merge_sort_Permutation String.le). Qed.

Lemma sorted_length (names : list string) : length (sorted names) = length names.
Proof. apply Permutation_length, sorted_Permutation. Qed.

(** In a strongly sorted list an earlier element is below a later one. *)
Lemma StronglySorted_lookup_lt {A : Type} (R : relation A) (l : list A)
    (i j : nat) (x y : A) :
  StronglySorted R l -> l !! i = Some x -> l !! j = Some y -> i < j -> R x y.
Proof.
  intros Hss. revert i j. induction Hss as [|a l Hss IH Hall]; intros i j Hi Hj Hij.
  - rewrite lookup_nil in Hi. discriminate Hi.
  - destruct j as [|j]; [lia|]. simpl in Hj. destruct i as [|i].
    + simpl in Hi. inversion Hi; subst a.
      rewrite Forall_forall in Hall. apply Hall.
      eapply list_elem_of_lookup_2. exact Hj.
    + simpl in Hi. apply (IH i j); [exact Hi|exact Hj|lia].
Qed.

(** The result of [sorted] depends on the names only, not on their order. *)
Lemma sorted_order_independent (l1 l2 : list string) :
  l1 ≡ₚ l2 -> sorted l1 = sorted l2.
Proof.
  intros Hperm. apply (Sorted_unique String.le).
  - apply sorted_Sorted.
  - apply sorted_Sorted.
  - rewrite !sorted_Permutation. exact Hperm.
Qed.

(** ** [np.moveaxis(a, -1, 0)] is channel-first *)

Lemma np_size_app (l1 l2 : list nat) :
  np_size (l1 ++ l2)%list = np_size l1 * np_size l2.
Proof.
  unfold np_size. induction l1 as [|d l1 IH]; simpl; [lia|].
  rewrite IH. lia.
Qed.

Lemma moveaxis_channel_first {A : Type} (a : ndarray A) (lead : list nat) (c : nat) :
  shape a = (lead ++ [c])%list ->
  well_formed a ->
  exists b,
    np_moveaxis_last_first a = Ok b /\
    shape b = c :: lead /\
    well_formed b /\
    forall ch i, ch < c -> i < np_size lead ->
      data b !! (ch * np_size lead + i) = data a !! (i * c + ch).
Proof.
  intros Hshape Hwf. unfold well_formed in Hwf.
  rewrite Hshape, np_size_app in Hwf.
  assert (np_size [c] = c) as Hc by (unfold np_size; simpl; lia).
  rewrite Hc in Hwf.
  unfold np_moveaxis_last_first.
  rewrite Hshape, reverse_app. simpl. rewrite reverse_involutive.
  set (m := np_size lead) in *.
  set (f := fun k : nat => data a !! (k `mod` m * c + k `div` m)).
  assert (Forall (fun k => is_Some (f k)) (seq 0 (c * m))) as Hall.
  { apply Forall_forall. intros k Hk. apply elem_of_seq in Hk.
    apply lookup_lt_is_Some_2. rewrite Hwf.
    assert (0 < m) by (destruct m; [lia|lia]).
    pose proof (Nat.mod_upper_bound k m ltac:(lia)).
    assert (k `div` m < c) by (apply Nat.Div0.div_lt_upper_bound; lia).
    nia. }
  apply mapM_is_Some in Hall. destruct Hall as [d Hd].
  fold f. rewrite Hd. exists (mk_ndarray (c :: lead) d).
  split; [reflexivity|]. split; [reflexivity|].
  pose proof (length_mapM _ _ _ Hd) as Hlen. rewrite length_seq in Hlen.
  split.
  { unfold well_formed. simpl. fold (np_size lead). fold m. lia. }
  intros ch i Hch Hi. simpl.
  apply mapM_Some in Hd.
  assert (seq 0 (c * m) !! (ch * m + i) = Some (ch * m + i)) as Hk.
  { apply lookup_seq. split; [reflexivity|nia]. }
  destruct (Forall2_lookup_l _ _ _ _ _ Hd Hk) as (y & Hy & Hfy).
  rewrite Hy, <- Hfy. unfold f.
  replace ((ch * m + i) `mod` m) with i.
  2:{ rewrite Nat.add_comm, Nat.Div0.mod_add. symmetry. apply Nat.mod_small. lia. }
  replace ((ch * m + i) `div` m) with ch.
  2:{ rewrite Nat.add_comm, Nat.div_add by lia. rewrite Nat.div_small by lia. reflexivity. }
  reflexivity.
Qed.

(** ** The dataset: construction *)

Lemma init_inv (fs : filesystem) (p : string) (ds : Dataset.ImageFileOrDirectory) :
  Dataset.__init__ fs p = Ok ds ->
  (exists entries, fs !! p = Some (Dir entries) /\
                   ds = Dataset.DirDataset p (sorted entries)) \/
  (exists content, fs !! p = Some (File content) /\ ds = Dataset.FileDataset p).
Proof.
  unfold Dataset.__init__, os_path_exists, os_path_isdir, os_listdir.
  destruct (fs !! p) as [[content|entries]|] eqn:Hp; simpl; intros H.
  - right. exists content. split; [reflexivity|]. inversion H. reflexivity.
  - left. exists entries. split; [reflexivity|]. inversion H. reflexivity.
  - discriminate H.
Qed.

(** C9. [ImageFileOrDirectory(file_or_root)] raises [ValueError] exactly when
    the path does not exist (and raises nothing else); when the path exists
    the object is in directory mode exactly when the path is a directory,
    and otherwise in single-file mode with length 1. *)
Theorem init_rejects_exactly_missing_paths (fs : filesystem) (file_or_root : string) :
  ((exists msg, Dataset.__init__ fs file_or_root = Raise (ValueError msg))
     <-> os_path_exists fs file_or_root = false) /\
  (forall e, Dataset.__init__ fs file_or_root = Raise e ->
             e = ValueError ("'" +:+ file_or_root +:+ "' does not exist")) /\
  (os_path_exists fs file_or_root = true ->
   exists self,
     Dataset.__init__ fs file_or_root = Ok self /\
     (Dataset.mode self = Dataset.MODE_DIR <-> os_path_isdir fs file_or_root = true) /\
     (os_path_isdir fs file_or_root = false ->
      Dataset.mode self = Dataset.MODE_FILE /\ Dataset.__len__ self = 1)).
Proof.
  unfold Dataset.__init__, os_path_exists, os_path_isdir, os_listdir.
  destruct (fs !! file_or_root) as [[content|entries]|]; simpl.
  - split; [|split].
    + split; [intros [msg H]; discriminate H | discriminate].
    + intros e H. discriminate H.
    + intros _. eexists. split; [reflexivity|]. simpl.
      split; [split; discriminate | auto].
  - split; [|split].
    + split; [intros [msg H]; discriminate H | discriminate].
    + intros e H. discriminate H.
    + intros _. eexists. split; [reflexivity|]. simpl.
      split; [split; reflexivity | discriminate].
  - split; [|split].
    + split; [reflexivity | intros _; eexists; reflexivity].
    + intros e H. inversion H. reflexivity.
    + discriminate.
Qed.

(** C6. [len(dataset)] is 1 for a dataset built from a single file and the
    number of entries listed in the directory for one built from a
    directory. *)
Theorem len_is_dataset_count (fs : filesystem) (file_or_root : string)
    (self : Dataset.ImageFileOrDirectory) :
  Dataset.__init__ fs file_or_root = Ok self ->
  (os_path_isdir fs file_or_root = false -> Dataset.__len__ self = 1) /\
  (forall entries, os_listdir fs file_or_root = Ok entries ->
                   Dataset.__len__ self = length entries).
Proof.
  intros Hinit. unfold os_path_isdir, os_listdir.
  destruct (init_inv _ _ _ Hinit) as [(entries & Hp & ->)|(content & Hp & ->)];
    rewrite Hp; simpl.
  - split; [discriminate|]. intros es Hes. inversion Hes; subst.
    apply sorted_length.
  - split; [reflexivity|]. intros es Hes. discriminate Hes.
Qed.

Lemma len_is_dataset_count_witness :
  Dataset.__len__ (Dataset.DirDataset "imgs" ["a.png"; "b.png"]) = 2 /\
  Dataset.__len__ (Dataset.FileDataset "photo.png") = 1.
Proof.
  split.
  - refine (proj2 (len_is_dataset_count demo_fs "imgs"
                     (Dataset.DirDataset "imgs" ["a.png"; "b.png"]) _)
                  ["b.png"; "a.png"] _); vm_compute; reflexivity.
  - refine (proj1 (len_is_dataset_count demo_fs "photo.png"
                     (Dataset.FileDataset "photo.png") _) _);
      vm_compute; reflexivity.
Defined.

(** ** The dataset: item access *)

Section DatasetLoading.
Context {U8 F64 F32 : Type}.
Variable imread_decode : list Byte.byte -> result (ndarray U8).
Variable color_rgb2lab : ndarray U8 -> result (ndarray F64).
Variable to_float32 : F64 -> F32.

Local Abbreviation getitem :=
  (Dataset.__getitem__ imread_decode color_rgb2lab to_float32).
Local Abbreviation load_image :=
  (Dataset._load_image imread_decode color_rgb2lab to_float32).

Lemma getitem_via_item_path (fs : filesystem)
    (self : Dataset.ImageFileOrDirectory) (index : Z) :
  getitem fs self index =
  (path ← Dataset.item_path self index;
   img ← load_image fs path;
   mret (img, path)).
Proof.
  destruct self as [root files|file]; simpl; [|reflexivity].
  destruct (py_getitem files index); reflexivity.
Qed.

Lemma load_image_channel_first (fs : filesystem) (path : string)
    (rgb : ndarray U8) (lab : ndarray F64) (lead : list nat) (c : nat) :
  Dataset.io_imread imread_decode fs path = Ok rgb ->
  color_rgb2lab rgb = Ok lab ->
  shape lab = (lead ++ [c])%list ->
  well_formed lab ->
  exists img,
    load_image fs path = Ok img /\
    shape img = c :: lead /\
    well_formed img /\
    forall ch i, ch < c -> i < np_size lead ->
      data img !! (ch * np_size lead + i) = to_float32 <$> data lab !! (i * c + ch).
Proof.
  intros Hread Hlab Hshape Hwf.
  destruct (moveaxis_channel_first lab lead c Hshape Hwf)
    as (chw & Hmove & Hs & Hwf' & Hdata).
  exists (astype to_float32 chw).
  unfold Dataset._load_image. rewrite Hread. simpl. rewrite Hlab. simpl.
  rewrite Hmove. simpl. split; [reflexivity|].
  split; [exact Hs|]. split.
  { unfold well_formed in *. simpl. rewrite length_fmap. exact Hwf'. }
  intros ch i Hch Hi. simpl. rewrite list_lookup_fmap, Hdata by assumption.
  reflexivity.
Qed.

(** C4. For an existing path and a valid index, [__getitem__] returns the
    pair (image, path): the path is the file itself in single-file mode and
    [join(root, files[index])] in directory mode, and the image is that file
    read by [io.imread], converted by [rgb2lab], with its last (channel)
    axis moved to the front and every element cast to float32.  Whenever the
    file reads as an array whose Lab conversion has shape [lead ++ [c]], the
    returned image has shape [c :: lead] and holds at channel [ch], position
    [i] the float32 cast of Lab element [i], channel [ch]. *)
Theorem getitem_returns_channel_first_lab (fs0 fs : filesystem)
    (file_or_root : string) (self : Dataset.ImageFileOrDirectory) (index : Z) :
  Dataset.__init__ fs0 file_or_root = Ok self ->
  Dataset.valid_index self index ->
  exists path,
    Dataset.item_path self index = Ok path /\
    (os_path_isdir fs0 file_or_root = false -> path = file_or_root) /\
    (forall entries, os_listdir fs0 file_or_root = Ok entries ->
       exists name, py_getitem (sorted entries) index = Ok name /\
                    path = os_path_join file_or_root name) /\
    getitem fs self index =
      (rgb ← Dataset.io_imread imread_decode fs path;
       lab ← color_rgb2lab rgb;
       chw ← np_moveaxis_last_first lab;
       mret (astype to_float32 chw, path)) /\
    forall rgb lab lead c,
      Dataset.io_imread imread_decode fs path = Ok rgb ->
      color_rgb2lab rgb = Ok lab ->
      shape lab = (lead ++ [c])%list ->
      well_formed lab ->
      exists img,
        getitem fs self index = Ok (img, path) /\
        shape img = c :: lead /\
        forall ch i, ch < c -> i < np_size lead ->
          data img !! (ch * np_size lead + i)
          = to_float32 <$> data lab !! (i * c + ch).
Proof.
  intros Hinit Hvalid.
  assert (exists path,
            Dataset.item_path self index = Ok path /\
            (os_path_isdir fs0 file_or_root = false -> path = file_or_root) /\
            (forall entries, os_listdir fs0 file_or_root = Ok entries ->
               exists name, py_getitem (sorted entries) index = Ok name /\
                            path = os_path_join file_or_root name))
    as (path & Hpath & Hfile & Hdir).
  { unfold os_path_isdir, os_listdir.
    destruct (init_inv _ _ _ Hinit) as [(entries & Hp & ->)|(content & Hp & ->)];
      rewrite Hp; simpl.
    - destruct (py_getitem_valid (sorted entries) index Hvalid) as (name & Hname & _).
      exists (os_path_join file_or_root name). rewrite Hname. simpl.
      split; [reflexivity|]. split; [discriminate|].
      intros es Hes. inversion Hes; subst es. exists name. auto.
    - exists file_or_root. split; [reflexivity|]. split; [reflexivity|].
      intros es Hes. discriminate Hes. }
  exists path. split; [exact Hpath|]. split; [exact Hfile|].
  split; [exact Hdir|]. split.
  - rewrite getitem_via_item_path, Hpath. simpl.
    unfold Dataset._load_image.
    destruct (Dataset.io_imread imread_decode fs path) as [rgb|e]; [|reflexivity].
    simpl. destruct (color_rgb2lab rgb) as [lab|e]; [|reflexivity].
    simpl. destruct (np_moveaxis_last_first lab); reflexivity.
  - intros rgb lab lead c Hread Hlab Hshape Hwf.
    destruct (load_image_channel_first fs path rgb lab lead c Hread Hlab Hshape Hwf)
      as (img & Hload & Hs & _ & Hdata).
    exists img. rewrite getitem_via_item_path, Hpath. simpl. rewrite Hload.
    simpl. auto.
Qed.

(** C5. Single-file mode and directory mode normalise an image identically:
    when [p] is a file, [d] a directory listing the name [name], and the
    path [join(d, name)] leads to the same file as [p], then the image at
    index 0 of the dataset built from [p] equals the image that the dataset
    built from [d] returns at the position of [name] in the sorted listing,
    because both go through [_load_image]. *)
Theorem file_and_directory_modes_load_alike (fs : filesystem)
    (p d name : string) (entries : list string) :
  os_path_exists fs p = true ->
  os_path_isdir fs p = false ->
  os_listdir fs d = Ok entries ->
  name ∈ entries ->
  fs !! os_path_join d name = fs !! p ->
  exists single directory (i : nat),
    Dataset.__init__ fs p = Ok single /\
    Dataset.mode single = Dataset.MODE_FILE /\
    Dataset.__init__ fs d = Ok directory /\
    Dataset.mode directory = Dataset.MODE_DIR /\
    sorted entries !! i = Some name /\
    i < Dataset.__len__ directory /\
    fst <$> getitem fs directory (Z.of_nat i) = fst <$> getitem fs single 0 /\
    fst <$> getitem fs single 0 = load_image fs p.
Proof.
  intros Hex Hnd Hls Hin Hsame.
  assert (name ∈ sorted entries) as Hin'.
  { rewrite sorted_Permutation. exact Hin. }
  apply list_elem_of_lookup in Hin'. destruct Hin' as [i Hi].
  exists (Dataset.FileDataset p), (Dataset.DirDataset d (sorted entries)), i.
  unfold os_path_exists in Hex. unfold os_path_isdir in Hnd.
  unfold os_listdir in Hls.
  assert (load_image fs (os_path_join d name) = load_image fs p) as Hload.
  { unfold Dataset._load_image, Dataset.io_imread. rewrite Hsame.
    destruct (fs !! p) as [[content|es]|]; [reflexivity|discriminate|discriminate]. }
  split.
  { unfold Dataset.__init__, os_path_exists, os_path_isdir.
    destruct (fs !! p) as [[content|es]|]; [reflexivity|discriminate|discriminate]. }
  split; [reflexivity|]. split.
  { unfold Dataset.__init__, os_path_exists, os_path_isdir, os_listdir.
    destruct (fs !! d) as [[content|es]|]; [discriminate| |discriminate].
    inversion Hls; subst es. reflexivity. }
  split; [reflexivity|]. split; [exact Hi|]. split.
  { simpl. eapply lookup_lt_Some. exact Hi. }
  split.
  - simpl. rewrite (py_getitem_nat _ _ _ Hi). simpl. rewrite Hload.
    destruct (load_image fs p); reflexivity.
  - simpl. destruct (load_image fs p); reflexivity.
Qed.

(** C10. In directory mode the file names are sorted once, at construction:
    [files] is the ascending (character-wise lexicographic) arrangement of
    the directory listing, [__getitem__(i)] loads [join(root, files[i])]
    whatever the file system lists when it is called, and a second
    construction over a listing with the same names in another enumeration
    order yields the same object, hence the same index-to-file mapping. *)
Theorem directory_index_follows_sorted_names (fs : filesystem) (root : string)
    (entries : list string) :
  os_listdir fs root = Ok entries ->
  exists files,
    Dataset.__init__ fs root = Ok (Dataset.DirDataset root files) /\
    files = sorted entries /\
    files ≡ₚ entries /\
    Sorted String.le files /\
    (forall (i j : nat) x y,
       files !! i = Some x -> files !! j = Some y -> i <= j -> String.le x y) /\
    (forall (fs' : filesystem) (i : nat) name,
       files !! i = Some name ->
       Dataset.item_path (Dataset.DirDataset root files) (Z.of_nat i)
         = Ok (os_path_join root name) /\
       getitem fs' (Dataset.DirDataset root files) (Z.of_nat i)
         = (img ← load_image fs' (os_path_join root name);
            mret (img, os_path_join root name))) /\
    (forall (fs2 : filesystem) entries2,
       os_listdir fs2 root = Ok entries2 ->
       entries2 ≡ₚ entries ->
       Dataset.__init__ fs2 root = Ok (Dataset.DirDataset root files)).
Proof.
  intros Hls.
  assert (forall (fs1 : filesystem) es,
            os_listdir fs1 root = Ok es ->
            Dataset.__init__ fs1 root = Ok (Dataset.DirDataset root (sorted es)))
    as Hinit.
  { intros fs1 es. unfold os_listdir, Dataset.__init__, os_path_exists,
      os_path_isdir, os_listdir.
    destruct (fs1 !! root) as [[content|es']|]; [discriminate| |discriminate].
    intros H. inversion H; subst. reflexivity. }
  exists (sorted entries).
  split; [apply Hinit; exact Hls|]. split; [reflexivity|].
  split; [apply sorted_Permutation|]. split; [apply sorted_Sorted|]. split.
  { intros i j x y Hi Hj Hij.
    destruct (decide (i = j)) as [->|Hne].
    - rewrite Hi in Hj. inversion Hj; subst. reflexivity.
    - pose proof (sorted_StronglySorted entries) as Hss.
      apply (StronglySorted_lookup_lt String.le _ i j x y Hss Hi Hj). lia. }
  split.
  { intros fs' i name Hi. simpl. rewrite (py_getitem_nat _ _ _ Hi). simpl.
    split; reflexivity. }
  intros fs2 entries2 Hls2 Hperm.
  rewrite <- (sorted_order_independent entries2 entries Hperm).
  apply Hinit. exact Hls2.
Qed.

End DatasetLoading.

Lemma getitem_returns_channel_first_lab_witness :
  exists img,
    Dataset.__getitem__ demo_decode demo_rgb2lab (fun x : Z => x) demo_fs
      (Dataset.DirDataset "imgs" ["a.png"; "b.png"]) (-1)
    = Ok (img, "imgs/b.png") /\
    shape img = [3; 1; 1].
Proof.
  destruct (getitem_returns_channel_first_lab demo_decode demo_rgb2lab
              (fun x : Z => x) demo_fs demo_fs "imgs"
              (Dataset.DirDataset "imgs" ["a.png"; "b.png"]) (-1)
              ltac:(vm_compute; reflexivity)
              ltac:(unfold Dataset.valid_index; simpl; lia))
    as (path & Hpath & _ & _ & _ & Himg).
  vm_compute in Hpath. inversion Hpath; subst path.
  destruct (Himg (mk_ndarray [1; 1; 3] [4; 5; 6]%Z)
                 (mk_ndarray [1; 1; 3] [4; 5; 6]%Z) [1; 1] 3
                 ltac:(vm_compute; reflexivity) ltac:(reflexivity)
                 ltac:(reflexivity) ltac:(reflexivity))
    as (img & Hget & Hshape & _).
  exists img. split; assumption.
Defined.

Lemma file_and_directory_modes_load_alike_witness :
  exists i : nat,
    sorted ["b.png"; "a.png"] !! i = Some "a.png" /\
    fst <$> Dataset.__getitem__ demo_decode demo_rgb2lab (fun x : Z => x) demo_fs
              (Dataset.DirDataset "imgs" (sorted ["b.png"; "a.png"])) (Z.of_nat i)
    = fst <$> Dataset.__getitem__ demo_decode demo_rgb2lab (fun x : Z => x) demo_fs
                (Dataset.FileDataset "photo.png") 0.
Proof.
  destruct (file_and_directory_modes_load_alike demo_decode demo_rgb2lab
              (fun x : Z => x) demo_fs "photo.png" "imgs" "a.png"
              ["b.png"; "a.png"]
              ltac:(vm_compute; reflexivity) ltac:(vm_compute; reflexivity)
              ltac:(vm_compute; reflexivity)
              ltac:(apply list_elem_of_In; simpl; auto)
              ltac:(vm_compute; reflexivity))
    as (single & directory & i & Hsingle & _ & Hdir & _ & Hi & _ & Heq & _).
  vm_compute in Hsingle. inversion Hsingle; subst single.
  assert (directory = Dataset.DirDataset "imgs" (sorted ["b.png"; "a.png"])) as ->.
  { vm_compute in Hdir. inversion Hdir. vm_compute. reflexivity. }
  exists i. split; [exact Hi|exact Heq].
Defined.

Lemma directory_index_follows_sorted_names_witness :
  Dataset.__init__ demo_fs "imgs" = Dataset.__init__ demo_fs_reordered "imgs" /\
  Dataset.item_path (Dataset.DirDataset "imgs" (sorted ["b.png"; "a.png"])) 0
    = Ok "imgs/a.png".
Proof.
  destruct (directory_index_follows_sorted_names demo_decode demo_rgb2lab
              (fun x : Z => x) demo_fs "imgs" ["b.png"; "a.png"]
              ltac:(vm_compute; reflexivity))
    as (files & Hinit & Hfiles & _ & _ & _ & Hitem & Hother).
  subst files. split.
  - rewrite Hinit. symmetry. apply (Hother demo_fs_reordered ["a.png"; "b.png"]).
    + vm_compute. reflexivity.
    + apply Permutation_swap.
  - apply (proj1 (Hitem demo_fs 0 "a.png" ltac:(vm_compute; reflexivity))).
Defined.

(** ** [run_evaluation.py]: argument validation *)

Example run_with_pretrained_weights :
  RunEvaluation.run RunEvaluation.demo_environment
    ["--config"; "c.json"; "--input-image"; "in.png"; "--output-image"; "out.png";
     "--pretrain-proto"; "p.prototxt"; "--pretrain-model"; "m.caffemodel"]
  = RunEvaluation.IO
      [RunEvaluation.EvGetConfig (RunEvaluation.VStr "c.json");
       RunEvaluation.EvInitFromCaffe (RunEvaluation.VStr "p.prototxt")
                                     (RunEvaluation.VStr "m.caffemodel");
       RunEvaluation.EvPredictImage (RunEvaluation.VStr "in.png")
         (RunEvaluation.VInt 224) (RunEvaluation.VStr "out.png")]
      (Ok tt).
Proof. vm_compute. reflexivity. Qed.

Example run_with_checkpoint_dir :
  RunEvaluation.run RunEvaluation.demo_environment
    ["--config"; "c.json"; "--input-image"; "in.png"; "--output-image"; "out.png";
     "--checkpoint-dir"; "ckpt"]
  = RunEvaluation.IO
      [RunEvaluation.EvGetConfig (RunEvaluation.VStr "c.json");
       RunEvaluation.EvFindLatestCheckpoint (RunEvaluation.VStr "ckpt");
       RunEvaluation.EvModelLoad (RunEvaluation.VStr "ckpt/latest.tar");
       RunEvaluation.EvPredictImage (RunEvaluation.VStr "in.png")
         (RunEvaluation.VInt 224) (RunEvaluation.VStr "out.png")]
      (Ok tt).
Proof. vm_compute. reflexivity. Qed.

Example run_with_checkpoint :
  RunEvaluation.run RunEvaluation.demo_environment
    ["--config"; "c.json"; "--input-image"; "in.png"; "--output-image"; "out.png";
     "--checkpoint"; "model.tar"]
  = RunEvaluation.IO [] (Raise (AttributeError "checkoint_dir")).
Proof. vm_compute. reflexivity. Qed.

Section Validation.
Import RunEvaluation.

Ltac case_attrs :=
  repeat match goal with
         | |- context [?m !! ?k] =>
             let v := fresh "v" in
             destruct (m !! k) as [v|]; simpl; [destruct (is_None v); simpl|]
         | H : context [?m !! ?k] |- _ =>
             let v := fresh "v" in
             destruct (m !! k) as [v|]; simpl in H |- *;
             [destruct (is_None v); simpl in H |- *|]
         end.

Lemma misspelled_attribute_absent (args : gmap string value) :
  dom args = namespace_attributes -> args !! "checkoint_dir" = None.
Proof.
  intros Hdom. apply not_elem_of_dom. rewrite Hdom.
  vm_compute. intros H. discriminate H.
Qed.

Lemma parse_options_dom (p : list argument) (n : nat) :
  forall (argv : list string) (args args' : gmap string value),
    length argv <= n ->
    (forall a, a ∈ p -> dest a ∈ dom args) ->
    parse_options p argv args = Ok args' -> dom args' = dom args.
Proof.
  induction n as [|n IH]; intros argv args args' Hlen Hp.
  { destruct argv; [|simpl in Hlen; lia]. simpl. intros H.
    inversion H. reflexivity. }
  destruct argv as [|tok rest]; simpl.
  { intros H. inversion H. reflexivity. }
  simpl in Hlen.
  destruct (String.eqb tok "-h" || String.eqb tok "--help")%bool; [discriminate|].
  destruct (List.find _ p) as [a|] eqn:Hfind; [|discriminate].
  apply List.find_some in Hfind. destruct Hfind as [Hin _].
  apply list_elem_of_In in Hin.
  assert (forall v, dom (<[dest a := v]> args) = dom args) as Hdom.
  { intros v. apply dom_insert_lookup_L, elem_of_dom, Hp, Hin. }
  destruct (arg_action a).
  - destruct rest as [|v rest']; [discriminate|]. intros H.
    apply IH in H.
    + rewrite H. apply Hdom.
    + simpl in Hlen. lia.
    + intros b Hb. rewrite Hdom. apply Hp, Hb.
  - intros H. apply IH in H.
    + rewrite H. apply Hdom.
    + lia.
    + intros b Hb. rewrite Hdom. apply Hp, Hb.
Qed.

(** Every namespace [parse_args] returns has exactly the attributes the
    [add_argument] calls define. *)
Lemma parse_args_attributes (argv : list string) (args : gmap string value) :
  parse_args argv = Ok args -> dom args = namespace_attributes.
Proof.
  unfold parse_args. destruct (parse_options parser argv (defaults parser))
    as [args'|e] eqn:Hparse; simpl; [|discriminate].
  match goal with
  | |- context [if ?c then _ else _] => destruct c
  end; [|discriminate].
  intros H. inversion H; subst args'.
  apply (parse_options_dom parser (length argv)) in Hparse; [|lia|].
  - rewrite Hparse. vm_compute. reflexivity.
  - intros a Ha. unfold defaults. rewrite dom_list_to_map_L.
    rewrite <- list_fmap_compose. apply elem_of_list_to_set.
    apply list_elem_of_fmap. exists a. split; [reflexivity|exact Ha].
Qed.

Lemma validate_inputs_message (args : gmap string value) :
  validate_inputs args <> Raise (ValueError checkpoint_conflict_message).
Proof.
  unfold validate_inputs, attr_is_none, attr_is_not_none, py_and, getattr.
  case_attrs; discriminate.
Qed.

Lemma validate_pretrain_message (args : gmap string value) :
  validate_pretrain args <> Raise (ValueError checkpoint_conflict_message).
Proof.
  unfold validate_pretrain, attr_is_none, getattr.
  case_attrs; discriminate.
Qed.

Lemma select_source_message (args : gmap string value) :
  select_source args <> Raise (ValueError checkpoint_conflict_message).
Proof.
  unfold select_source, attr_is_not_none, py_or, getattr.
  case_attrs; discriminate.
Qed.

Lemma validate_checkpoint_cases (args : gmap string value) :
  args !! "checkoint_dir" = None ->
  validate_checkpoint args = Ok tt \/
  exists attr, validate_checkpoint args = Raise (AttributeError attr).
Proof.
  intros Hmiss.
  unfold validate_checkpoint, attr_is_not_none, py_and, getattr.
  rewrite Hmiss. case_attrs; eauto.
Qed.

(** C8. With [--checkpoint] supplied and the earlier argument checks
    passed, evaluating [args.checkpoint is not None and args.checkoint_dir
    is not None] raises [AttributeError] for the attribute [checkoint_dir],
    which argparse never defines; so the main block stops there, before any
    call that loads configuration or model, and the rejection of
    [--checkpoint] together with [--checkpoint-dir] is never raised. *)
Theorem checkpoint_option_raises_attribute_error (env : environment)
    (args : gmap string value) :
  dom args = namespace_attributes ->
  validate args <> Raise (ValueError checkpoint_conflict_message) /\
  forall checkpoint,
    args !! "checkpoint" = Some checkpoint ->
    checkpoint <> VNone ->
    validate_inputs args = Ok tt ->
    validate_pretrain args = Ok tt ->
    validate_checkpoint args = Raise (AttributeError "checkoint_dir") /\
    main env args = IO [] (Raise (AttributeError "checkoint_dir")).
Proof.
  intros Hdom. pose proof (misspelled_attribute_absent args Hdom) as Hmiss.
  split.
  - unfold validate.
    pose proof (validate_inputs_message args) as H1.
    pose proof (validate_pretrain_message args) as H2.
    pose proof (select_source_message args) as H4.
    destruct (validate_checkpoint_cases args Hmiss) as [H3|[attr H3]].
    + destruct (validate_inputs args) as [[]|e1]; simpl; [|congruence].
      destruct (validate_pretrain args) as [[]|e2]; simpl; [|congruence].
      rewrite H3. simpl. exact H4.
    + destruct (validate_inputs args) as [[]|e1]; simpl; [|congruence].
      destruct (validate_pretrain args) as [[]|e2]; simpl; [|congruence].
      rewrite H3. simpl. discriminate.
  - intros checkpoint Hck Hsome Hin Hpre.
    assert (validate_checkpoint args = Raise (AttributeError "checkoint_dir")) as Hraise.
    { unfold validate_checkpoint, attr_is_not_none, py_and, getattr.
      rewrite Hck, Hmiss. simpl. destruct checkpoint; simpl; congruence. }
    split; [exact Hraise|].
    unfold main, validate. rewrite Hin, Hpre. simpl. rewrite Hraise. reflexivity.
Qed.

End Validation.

Lemma checkpoint_option_raises_attribute_error_witness :
  RunEvaluation.parse_args
    ["--config"; "c.json"; "--input-image"; "in.png"; "--output-image"; "out.png";
     "--checkpoint"; "model.tar"] = Ok RunEvaluation.demo_args /\
  RunEvaluation.main RunEvaluation.demo_environment RunEvaluation.demo_args
  = RunEvaluation.IO [] (Raise (AttributeError "checkoint_dir")).
Proof.
  split; [vm_compute; reflexivity|].
  refine (proj2 (proj2 (checkpoint_option_raises_attribute_error
                   RunEvaluation.demo_environment RunEvaluation.demo_args _)
                 (RunEvaluation.VStr "model.tar") _ _ _ _)).
  - vm_compute. reflexivity.
  - vm_compute. reflexivity.
  - discriminate.
  - vm_compute. reflexivity.
  - vm_compute. reflexivity.
Defined.

(** ** The annealed decoder *)

Section Decoder.
Import Core Reals Lra.
Local Open Scope R_scope.

Lemma softmax_length (scores : list R) : length (softmax scores) = length scores.
Proof. unfold softmax. rewrite !length_fmap. reflexivity. Qed.

Lemma Rsum_exp_pos (m : R) (scores : list R) :
  scores <> [] -> 0 < Rsum ((fun s => exp (s - m)) <$> scores).
Proof.
  intros Hne. destruct scores as [|s rest]; [congruence|]. clear Hne.
  revert s. induction rest as [|s' rest IH]; intros s; simpl.
  - pose proof (exp_pos (s - m)). lra.
  - pose proof (exp_pos (s - m)). specialize (IH s'). simpl in IH. lra.
Qed.

(** Normalisation keeps the order of the scores. *)
Lemma softmax_lookup (scores : list R) (i : nat) (s : R) :
  scores !! i = Some s ->
  softmax scores !! i =
    Some (exp (s - Rmax_list scores)
          / Rsum ((fun s => exp (s - Rmax_list scores)) <$> scores)).
Proof.
  intros Hs. unfold softmax. rewrite !list_lookup_fmap, Hs. reflexivity.
Qed.

Lemma softmax_pos (scores : list R) (i : nat) (p : R) :
  softmax scores !! i = Some p -> 0 < p.
Proof.
  intros Hp. assert (scores <> []) as Hne.
  { intros ->. unfold softmax in Hp. simpl in Hp. discriminate Hp. }
  destruct (lookup_lt_is_Some_2 scores i) as [s Hs].
  { rewrite <- softmax_length. eapply lookup_lt_Some. exact Hp. }
  rewrite (softmax_lookup _ _ _ Hs) in Hp. inversion Hp; subst p.
  apply Rdiv_lt_0_compat; [apply exp_pos|apply Rsum_exp_pos, Hne].
Qed.

(** The scan returns the first position of a largest entry. *)
Lemma argmax_from_spec (rest done : list R) (best_index : nat) (best : R) :
  done !! best_index = Some best ->
  (forall j x, done !! j = Some x -> x <= best) ->
  (forall j x, (j < best_index)%nat -> done !! j = Some x -> x < best) ->
  exists v,
    (done ++ rest)%list !! argmax_from best_index best (length done) rest = Some v /\
    (forall j x, (done ++ rest)%list !! j = Some x -> x <= v) /\
    (forall j x, (j < argmax_from best_index best (length done) rest)%nat ->
                 (done ++ rest)%list !! j = Some x -> x < v).
Proof.
  revert done best_index best.
  induction rest as [|x rest IH]; intros done best_index best Hbest Hmax Hfirst.
  - simpl. rewrite app_nil_r. exists best. auto.
  - simpl. replace (done ++ x :: rest)%list with ((done ++ [x]) ++ rest)%list
      by (rewrite <- app_assoc; reflexivity).
    replace (S (length done)) with (length (done ++ [x])%list)
      by (rewrite length_app; simpl; lia).
    destruct (decide (best < x)) as [Hlt|Hge].
    + apply IH.
      * rewrite lookup_app_r by lia. rewrite Nat.sub_diag. reflexivity.
      * intros j y Hy. apply lookup_app_Some in Hy.
        destruct Hy as [Hy|[_ Hy]].
        -- specialize (Hmax j y Hy). lra.
        -- apply list_lookup_singleton_Some in Hy. destruct Hy as [_ ->]. lra.
      * intros j y Hj Hy. rewrite lookup_app_l in Hy by exact Hj.
        specialize (Hmax j y Hy). lra.
    + apply IH.
      * rewrite lookup_app_l by (eapply lookup_lt_Some; exact Hbest). exact Hbest.
      * intros j y Hy. apply lookup_app_Some in Hy.
        destruct Hy as [Hy|[_ Hy]].
        -- apply (Hmax j y Hy).
        -- apply list_lookup_singleton_Some in Hy. destruct Hy as [_ ->]. lra.
      * intros j y Hj Hy.
        pose proof (lookup_lt_Some _ _ _ Hbest) as Hlen.
        rewrite lookup_app_l in Hy by lia. apply (Hfirst j y Hj Hy).
Qed.

Lemma argmax_spec (p : list R) :
  p <> [] ->
  exists v,
    p !! argmax p = Some v /\
    (forall j x, p !! j = Some x -> x <= v) /\
    (forall j x, (j < argmax p)%nat -> p !! j = Some x -> x < v).
Proof.
  intros Hne. destruct p as [|x rest]; [congruence|]. unfold argmax.
  apply (argmax_from_spec rest [x] 0 x).
  - reflexivity.
  - intros j y Hy. apply list_lookup_singleton_Some in Hy.
    destruct Hy as [_ ->]. lra.
  - intros j y Hj. lia.
Qed.

Lemma Rsum_zip_zeros {A : Type} (f : A -> R) (n : nat) (l : list A) :
  Rsum (zip_with (fun q c => q * f c) (replicate n 0) l) = 0.
Proof.
  revert l. induction n as [|n IH]; intros [|c l]; simpl; try reflexivity.
  rewrite IH. lra.
Qed.

Lemma Rsum_zip_one_hot {A : Type} (f : A -> R) (l : list A) (i : nat) (c : A) :
  l !! i = Some c ->
  Rsum (zip_with (fun q c => q * f c) (one_hot (length l) i) l) = f c.
Proof.
  unfold one_hot. revert i. induction l as [|c0 l IH]; intros i Hc.
  - rewrite lookup_nil in Hc. discriminate Hc.
  - destruct i as [|i]; simpl in *.
    + inversion Hc; subst c0. rewrite Rsum_zip_zeros. lra.
    + rewrite (IH i Hc). lra.
Qed.

Lemma expectation_one_hot (table : GamutTable) (i : nat) (c : point) :
  table !! i = Some c -> expectation table (one_hot (length table) i) = c.
Proof.
  intros Hc. unfold expectation.
  rewrite (Rsum_zip_one_hot fst table i c Hc).
  rewrite (Rsum_zip_one_hot snd table i c Hc).
  destruct c; reflexivity.
Qed.

(** C2. Decoding at temperature [T = 0] is a valid configuration and
    selects, for the pixel's raw scores, the bin [i] whose normalised
    probability is maximal, the lowest such index on ties: bin [i] gets
    weight 1 and every other bin weight 0, so the decoded sample is the
    center of bin [i]; the same holds at every pixel of a score map. *)
Theorem decode_at_zero_temperature_selects_first_maximum
    (table : GamutTable) (rawScores : list R) :
  rawScores <> [] ->
  length rawScores = size table ->
  exists d i pi c,
    AnnealedMeanDecodeQ table 0 = Ok d /\
    i = argmax (softmax rawScores) /\
    softmax rawScores !! i = Some pi /\
    (forall j pj, softmax rawScores !! j = Some pj -> pj <= pi) /\
    (forall j pj, (j < i)%nat -> softmax rawScores !! j = Some pj -> pj < pi) /\
    anneal 0 (softmax rawScores) !! i = Some 1 /\
    (forall j, j <> i -> (j < size table)%nat ->
               anneal 0 (softmax rawScores) !! j = Some 0) /\
    centerOf table i = Some c /\
    forward d rawScores = c /\
    decode table rawScores 0 = Ok c /\
    (forall (scores : list (list (list R))) (y x : nat) row,
       scores !! y = Some row -> row !! x = Some rawScores ->
       forward_image d scores !! y ≫= (.!! x) = Some c).
Proof.
  intros Hne Hlen. unfold size in *.
  set (p := softmax rawScores).
  assert (length p = length table) as Hplen.
  { subst p. rewrite softmax_length. exact Hlen. }
  assert (p <> []) as Hpne.
  { intros Hp. rewrite Hp in Hplen. simpl in Hplen.
    destruct rawScores; [congruence|]. simpl in Hlen. lia. }
  destruct (argmax_spec p Hpne) as (pi & Hpi & Hmax & Hfirst).
  pose proof (lookup_lt_Some _ _ _ Hpi) as Hi.
  destruct (lookup_lt_is_Some_2 table (argmax p)) as [c Hc]; [lia|].
  assert (AnnealedMeanDecodeQ table 0 = Ok (mk_decoder table 0)) as Hmk.
  { unfold AnnealedMeanDecodeQ. destruct (decide (0 < 0)); [lra|reflexivity]. }
  assert (anneal 0 p = one_hot (length table) (argmax p)) as Hanneal.
  { unfold anneal. destruct (decide (0 = 0)); [|congruence].
    rewrite Hplen. reflexivity. }
  assert (forward (mk_decoder table 0) rawScores = c) as Hfwd.
  { unfold forward. simpl. fold p. rewrite Hanneal.
    apply expectation_one_hot, Hc. }
  exists (mk_decoder table 0), (argmax p), pi, c.
  split; [exact Hmk|]. split; [reflexivity|]. split; [exact Hpi|].
  split; [exact Hmax|]. split; [exact Hfirst|]. split.
  { rewrite Hanneal. unfold one_hot. apply list_lookup_insert_eq.
    rewrite length_replicate. lia. }
  split.
  { intros j Hj Hjlen. rewrite Hanneal. unfold one_hot.
    rewrite list_lookup_insert_ne by congruence.
    apply lookup_replicate_2. exact Hjlen. }
  split; [exact Hc|]. split; [exact Hfwd|]. split.
  { unfold decode. rewrite Hmk. simpl. rewrite Hfwd. reflexivity. }
  intros scores y x row Hrow Hx. unfold forward_image.
  change (map (map (forward (mk_decoder table 0))) scores)
    with (map (forward (mk_decoder table 0)) <$> scores).
  rewrite list_lookup_fmap, Hrow. simpl.
  change (map (forward (mk_decoder table 0)) row)
    with (forward (mk_decoder table 0) <$> row).
  rewrite list_lookup_fmap, Hx. simpl. rewrite Hfwd. reflexivity.
Qed.

Lemma decode_at_zero_temperature_selects_first_maximum_witness :
  decode demo_table [0; 0; 0] 0 = Ok (0, 0).
Proof.
  destruct (decode_at_zero_temperature_selects_first_maximum demo_table [0; 0; 0]
              ltac:(discriminate) ltac:(reflexivity))
    as (d & i & pi & c & _ & _ & Hpi & _ & Hfirst & _ & _ & Hc & _ & Hdec & _).
  rewrite Hdec. f_equal.
  assert (i = 0%nat) as ->.
  { destruct i as [|i]; [reflexivity|]. exfalso.
    assert (exists s, ([0; 0; 0] : list R) !! S i = Some s /\ s = 0) as (s & Hs & ->).
    { destruct i as [|[|i]]; simpl; eauto.
      apply lookup_lt_Some in Hpi. rewrite softmax_length in Hpi.
      simpl in Hpi. lia. }
    rewrite (softmax_lookup _ _ _ Hs) in Hpi.
    assert (softmax [0; 0; 0] !! 0%nat = Some pi) as H0.
    { rewrite (softmax_lookup [0; 0; 0] 0 0 eq_refl). exact Hpi. }
    specialize (Hfirst 0%nat pi ltac:(lia) H0). lra. }
  simpl in Hc. inversion Hc. reflexivity.
Defined.

(** C7. A negative temperature is rejected when the decoder is constructed,
    with a [ValueError] that names the problem; no decoder is produced, so
    decoding with it fails too, and a decoder that is produced always
    carries exactly the temperature it was given, which is then
    non-negative (nothing is clamped). *)
Theorem negative_temperature_is_rejected (table : GamutTable) (T : R) :
  T < 0 ->
  AnnealedMeanDecodeQ table T
    = Raise (ValueError "temperature T must not be negative") /\
  (forall d, AnnealedMeanDecodeQ table T <> Ok d) /\
  (forall rawScores,
     decode table rawScores T
     = Raise (ValueError "temperature T must not be negative")) /\
  (forall T' d, AnnealedMeanDecodeQ table T' = Ok d -> dec_T d = T' /\ 0 <= T').
Proof.
  intros Hneg.
  assert (AnnealedMeanDecodeQ table T
          = Raise (ValueError "temperature T must not be negative")) as Hraise.
  { unfold AnnealedMeanDecodeQ. destruct (decide (T < 0)); [reflexivity|lra]. }
  split; [exact Hraise|]. split.
  { intros d Hd. rewrite Hraise in Hd. discriminate Hd. }
  split.
  { intros rawScores. unfold decode. rewrite Hraise. reflexivity. }
  intros T' d. unfold AnnealedMeanDecodeQ.
  destruct (decide (T' < 0)) as [Hlt|Hge]; [discriminate|].
  intros Hd. inversion Hd; subst d. simpl. split; [reflexivity|lra].
Qed.

Lemma negative_temperature_is_rejected_witness :
  AnnealedMeanDecodeQ demo_table (-1)
  = Raise (ValueError "temperature T must not be negative").
Proof.
  apply (negative_temperature_is_rejected demo_table (-1)). lra.
Defined.

End Decoder.

(** ** The soft encoder *)

Section Encoder.
Import Core Reals Lra.
Local Open Scope R_scope.

Lemma Rsum_replicate_zero (n : nat) : Rsum (replicate n 0) = 0.
Proof. induction n as [|n IH]; simpl; [reflexivity|]. rewrite IH. lra. Qed.

Lemma Rsum_insert (l : list R) (i : nat) (old v : R) :
  l !! i = Some old -> Rsum (<[i := v]> l) = Rsum l - old + v.
Proof.
  revert i. induction l as [|x l IH]; intros i Hi.
  - rewrite lookup_nil in Hi. discriminate Hi.
  - destruct i as [|i]; simpl in *.
    + inversion Hi; subst x. lra.
    + rewrite (IH i Hi). lra.
Qed.

Lemma Rsum_scale (l : list R) (z : R) :
  Rsum ((fun x => x / z) <$> l) = Rsum l / z.
Proof.
  induction l as [|x l IH].
  - simpl. unfold Rdiv. lra.
  - change (Rsum ((fun x => x / z) <$> x :: l))
      with (x / z + Rsum ((fun x => x / z) <$> l)).
    rewrite IH. simpl. unfold Rdiv. lra.
Qed.

Lemma Rsum_pos (l : list R) :
  l <> [] -> Forall (fun x => 0 < x) l -> 0 < Rsum l.
Proof.
  intros Hne Hall. destruct l as [|x l]; [congruence|]. clear Hne.
  revert x Hall. induction l as [|y l IH]; intros x Hall; simpl.
  - inversion Hall; subst. lra.
  - inversion Hall as [|? ? Hx Hrest]; subst.
    specialize (IH y Hrest). simpl in IH. lra.
Qed.

Lemma scatter_length (n : nat) (ws : list (nat * R)) :
  length (scatter n ws) = n.
Proof.
  induction ws as [|w ws IH]; simpl.
  - apply length_replicate.
  - rewrite length_insert. exact IH.
Qed.

(** A bin no weight is written to stays at zero. *)
Lemma scatter_lookup_untouched (n : nat) (ws : list (nat * R)) (i : nat) :
  i ∉ ws.*1 -> (i < n)%nat -> scatter n ws !! i = Some 0.
Proof.
  intros Hnot Hi. induction ws as [|w ws IH].
  - apply lookup_replicate_2, Hi.
  - rewrite fmap_cons in Hnot.
    apply not_elem_of_cons in Hnot. destruct Hnot as [Hne Hnot].
    change (scatter n (w :: ws)) with (<[w.1 := w.2]> (scatter n ws)).
    rewrite list_lookup_insert_ne by congruence. apply IH, Hnot.
Qed.

Lemma Rsum_scatter (n : nat) (ws : list (nat * R)) :
  NoDup ws.*1 -> Forall (fun i => (i < n)%nat) ws.*1 ->
  Rsum (scatter n ws) = Rsum ws.*2.
Proof.
  induction ws as [|w ws IH]; intros Hnd Hall.
  - apply Rsum_replicate_zero.
  - rewrite fmap_cons in Hnd, Hall. rewrite fmap_cons.
    apply NoDup_cons in Hnd. destruct Hnd as [Hnot Hnd].
    apply Forall_cons in Hall. destruct Hall as [Hw Hrest].
    change (scatter n (w :: ws)) with (<[w.1 := w.2]> (scatter n ws)).
    rewrite (Rsum_insert _ _ 0) by (apply scatter_lookup_untouched; assumption).
    rewrite (IH Hnd Hrest).
    change (Rsum (w.2 :: ws.*2)) with (w.2 + Rsum ws.*2). lra.
Qed.

Lemma scatter_nonneg (n : nat) (ws : list (nat * R)) :
  Forall (fun w => 0 <= w.2) ws -> Forall (fun x => 0 <= x) (scatter n ws).
Proof.
  induction 1 as [|w ws Hw Hrest IH]; simpl.
  - apply Forall_replicate. lra.
  - apply Forall_insert; assumption.
Qed.

Lemma count_nonzero_replicate_zero (n : nat) : count_nonzero (replicate n 0) = 0%nat.
Proof.
  unfold count_nonzero. induction n as [|n IH]; simpl; [reflexivity|].
  rewrite filter_cons_False by (intros H; apply H; reflexivity). exact IH.
Qed.

Lemma count_nonzero_insert (l : list R) (i : nat) (v : R) :
  (count_nonzero (<[i := v]> l) <= S (count_nonzero l))%nat.
Proof.
  unfold count_nonzero. revert i. induction l as [|x l IH]; intros i.
  - simpl. lia.
  - destruct i as [|i]; simpl.
    + rewrite !filter_cons.
      destruct (decide (v <> 0)); destruct (decide (x <> 0)); simpl; lia.
    + rewrite !filter_cons. specialize (IH i).
      destruct (decide (x <> 0)); simpl; lia.
Qed.

(** At most one bin becomes nonzero per weight written. *)
Lemma count_nonzero_scatter (n : nat) (ws : list (nat * R)) :
  (count_nonzero (scatter n ws) <= length ws)%nat.
Proof.
  induction ws as [|w ws IH]; simpl.
  - rewrite count_nonzero_replicate_zero. lia.
  - pose proof (count_nonzero_insert (scatter n ws) w.1 w.2). lia.
Qed.

(** [nearestK] returns [min k N] pairs whose indices are distinct bins. *)
Lemma nearestK_indices (table : GamutTable) (sample : point) (k : nat) :
  NoDup (nearestK table sample k).*1 /\
  Forall (fun i => (i < size table)%nat) (nearestK table sample k).*1 /\
  length (nearestK table sample k) = Nat.min k (size table).
Proof.
  unfold nearestK, size.
  set (cand := imap (fun i c => (i, distance sample c)) table).
  assert (cand.*1 = seq 0 (length table)) as Hidx.
  { subst cand. rewrite fmap_imap.
    rewrite (imap_ext _ (fun i _ => i)) by reflexivity.
    rewrite (imap_seq_0 table (fun i => i)). apply list_fmap_id. }
  assert ((merge_sort nearer cand).*1 ≡ₚ seq 0 (length table)) as Hperm.
  { rewrite <- Hidx. apply fmap_Permutation, merge_sort_Permutation. }
  rewrite fmap_take. split; [|split].
  - eapply sublist_NoDup; [|apply sublist_take].
    rewrite Hperm. apply NoDup_seq.
  - apply Forall_take. rewrite Hperm. apply Forall_forall.
    intros i Hi. apply elem_of_seq in Hi. lia.
  - rewrite length_take. f_equal.
    rewrite <- (length_fmap fst), Hperm. apply length_seq.
Qed.

(** C3. For a non-empty gamut table, [k >= 1] neighbours and a positive
    kernel width, [encode(s)] has exactly [N] entries (one per bin), all
    non-negative, summing to 1 (in exact arithmetic, hence within 1e-6 of
    1), and at most [k] of them are nonzero. *)
Theorem encode_is_sparse_distribution (table : GamutTable) (k : nat)
    (sigma : R) (sample : point) :
  table <> [] ->
  (0 < k)%nat ->
  0 < sigma ->
  length (encode table k sigma sample) = size table /\
  Forall (fun x => 0 <= x) (encode table k sigma sample) /\
  Rsum (encode table k sigma sample) = 1 /\
  Rabs (Rsum (encode table k sigma sample) - 1) <= 1 / 1000000 /\
  (count_nonzero (encode table k sigma sample) <= k)%nat.
Proof.
  intros Htable Hk Hsigma.
  destruct (nearestK_indices table sample k) as (Hnd & Hrange & Hlen).
  unfold encode.
  set (nn := nearestK table sample k) in *.
  set (weights := (fun id : nat * R => (id.1, gaussian sigma id.2)) <$> nn).
  set (total := Rsum weights.*2).
  set (normalised := (fun iw : nat * R => (iw.1, iw.2 / total)) <$> weights).
  assert (normalised.*1 = nn.*1) as Hfst.
  { subst normalised weights. rewrite <- !list_fmap_compose.
    apply list_fmap_ext. intros i [j d] _. reflexivity. }
  assert (normalised.*2 = (fun x => x / total) <$> weights.*2) as Hsnd.
  { subst normalised. rewrite <- !list_fmap_compose.
    apply list_fmap_ext. intros i [j w] _. reflexivity. }
  assert (Forall (fun x => 0 < x) weights.*2) as Hpos.
  { subst weights. rewrite <- list_fmap_compose. apply Forall_fmap.
    apply Forall_forall. intros [j d] _. simpl. apply exp_pos. }
  assert (weights.*2 <> []) as Hne.
  { intros Hnil. apply (f_equal length) in Hnil.
    subst weights. rewrite !length_fmap, Hlen in Hnil. simpl in Hnil.
    unfold size in Hnil. destruct table; [congruence|]. simpl in Hnil. lia. }
  pose proof (Rsum_pos _ Hne Hpos) as Htotal. fold total in Htotal.
  assert (Rsum (scatter (size table) normalised) = 1) as Hsum.
  { rewrite Rsum_scatter.
    - rewrite Hsnd, Rsum_scale. fold total. apply Rdiv_diag. lra.
    - rewrite Hfst. exact Hnd.
    - rewrite Hfst. exact Hrange. }
  split; [apply scatter_length|]. split.
  { apply scatter_nonneg. subst normalised. apply Forall_fmap.
    apply Forall_forall. intros [j w] Hin. simpl.
    assert (0 < w) as Hw.
    { rewrite Forall_forall in Hpos. apply Hpos.
      apply (list_elem_of_fmap_2 snd) in Hin. exact Hin. }
    apply Rlt_le, Rdiv_lt_0_compat; assumption. }
  split; [exact Hsum|]. split.
  { rewrite Hsum. replace (1 - 1) with 0 by lra. rewrite Rabs_R0. lra. }
  pose proof (count_nonzero_scatter (size table) normalised) as Hcount.
  assert (length normalised = length nn) as Hlen'.
  { subst normalised weights. rewrite !length_fmap. reflexivity. }
  rewrite Hlen', Hlen in Hcount. lia.
Qed.

Lemma encode_is_sparse_distribution_witness :
  length (encode demo_table 2 5 (3%R, 1%R)) = 3%nat /\
  Rsum (encode demo_table 2 5 (3%R, 1%R)) = 1 /\
  (count_nonzero (encode demo_table 2 5 (3%R, 1%R)) <= 2)%nat.
Proof.
  destruct (encode_is_sparse_distribution demo_table 2 5 (3%R, 1%R)
              ltac:(discriminate) ltac:(lia) ltac:(lra))
    as (Hlen & _ & Hsum & _ & Hcount).
  split; [exact Hlen|]. split; [exact Hsum|exact Hcount].
Defined.

End Encoder.

Lemma init_rejects_exactly_missing_paths_witness :
  Dataset.__init__ demo_fs "nope" = Raise (ValueError "'nope' does not exist") /\
  exists self, Dataset.__init__ demo_fs "imgs" = Ok self /\
               Dataset.mode self = Dataset.MODE_DIR.
Proof.
  split.
  - destruct (proj1 (init_rejects_exactly_missing_paths demo_fs "nope"))
      as [_ Hraise].
    destruct (Hraise ltac:(vm_compute; reflexivity)) as [msg Hmsg].
    rewrite Hmsg. f_equal.
    apply (proj1 (proj2 (init_rejects_exactly_missing_paths demo_fs "nope")) _ Hmsg).
  - destruct (proj2 (proj2 (init_rejects_exactly_missing_paths demo_fs "imgs"))
                ltac:(vm_compute; reflexivity))
      as (self & Hinit & Hmode & _).
    exists self. split; [exact Hinit|].
    apply Hmode. vm_compute. reflexivity.
Defined.

(** ** The dataset: indices at and beyond the bounds *)

Section DatasetIndexing.
Context {U8 F64 F32 : Type}.
Variable imread_decode : list Byte.byte -> result (ndarray U8).
Variable color_rgb2lab : ndarray U8 -> result (ndarray F64).
Variable to_float32 : F64 -> F32.

Local Abbreviation getitem :=
  (Dataset.__getitem__ imread_decode color_rgb2lab to_float32).
Local Abbreviation load_image :=
  (Dataset._load_image imread_decode color_rgb2lab to_float32).

(** X1. In directory mode an index outside [-len, len) raises [IndexError]
    from [self.files[index]], before any file is touched: the outcome is the
    same whatever the file system holds.  For an index that fits a machine
    word the message is "list index out of range".  In particular every
    index is rejected for an empty directory. *)
Theorem getitem_directory_index_out_of_range (fs0 fs : filesystem)
    (root : string) (self : Dataset.ImageFileOrDirectory) (index : Z) :
  Dataset.__init__ fs0 root = Ok self ->
  os_path_isdir fs0 root = true ->
  ~ Dataset.valid_index self index ->
  (exists msg, forall fs', getitem fs' self index = Raise (IndexError msg)) /\
  ((- 2 ^ 63 <= index < 2 ^ 63)%Z ->
   getitem fs self index = Raise (IndexError "list index out of range")) /\
  (Dataset.__len__ self = 0 ->
   forall i, exists msg, getitem fs self i = Raise (IndexError msg)).
Proof.
  intros Hinit Hdir Hinvalid. unfold os_path_isdir in Hdir.
  destruct (init_inv _ _ _ Hinit) as [(entries & Hp & ->)|(content & Hp & ->)];
    rewrite Hp in Hdir; [|discriminate].
  unfold Dataset.valid_index in Hinvalid. simpl in *. split; [|split].
  - eexists. intros fs'. rewrite (py_getitem_invalid _ _ Hinvalid). reflexivity.
  - intros _. rewrite (py_getitem_invalid _ _ Hinvalid). reflexivity.
  - intros Hempty i. eexists. rewrite py_getitem_invalid; [reflexivity|]. lia.
Qed.

(** X2. In single-file mode [__getitem__] never looks at the index: every
    index, also one outside the range that [__len__] announces, returns the
    one image with the path given at construction. *)
Theorem getitem_file_mode_ignores_index (fs0 fs : filesystem)
    (file : string) (self : Dataset.ImageFileOrDirectory) :
  Dataset.__init__ fs0 file = Ok self ->
  os_path_isdir fs0 file = false ->
  Dataset.__len__ self = 1 /\
  forall index,
    getitem fs self index = (img ← load_image fs file; mret (img, file)) /\
    getitem fs self index = getitem fs self 0.
Proof.
  intros Hinit Hdir. unfold os_path_isdir in Hdir.
  destruct (init_inv _ _ _ Hinit) as [(entries & Hp & ->)|(content & Hp & ->)];
    rewrite Hp in Hdir; [discriminate|].
  split; [reflexivity|]. intros index. split; reflexivity.
Qed.

(** X3. A negative index counts from the end, as on any Python list:
    [dataset[i - len(dataset)]] is [dataset[i]] for [0 <= i < len]. *)
Theorem getitem_negative_index (fs : filesystem)
    (self : Dataset.ImageFileOrDirectory) (i : nat) :
  i < Dataset.__len__ self ->
  getitem fs self (Z.of_nat i - Z.of_nat (Dataset.__len__ self))
  = getitem fs self (Z.of_nat i).
Proof.
  intros Hi. destruct self as [root files|file]; simpl in *; [|reflexivity].
  destruct (lookup_lt_is_Some_2 files i Hi) as [name Hname].
  rewrite (py_getitem_nat _ _ _ Hname).
  destruct (py_getitem_valid files (Z.of_nat i - Z.of_nat (length files))
              ltac:(lia)) as (name' & Hget & Hlook).
  rewrite Hget.
  destruct (Z.ltb_spec (Z.of_nat i - Z.of_nat (length files)) 0) as [_|?]; [|lia].
  replace (Z.to_nat (Z.of_nat i - Z.of_nat (length files) + Z.of_nat (length files)))
    with i in Hlook by lia.
  rewrite Hname in Hlook. inversion Hlook. reflexivity.
Qed.

(** X4. A directory dataset serves exactly the entries of the listing taken
    at construction, none filtered out and none added: every listed name is
    loaded at some index below [len], and every index that passes the bounds
    check loads [join(root, name)] for a listed name. *)
Theorem directory_dataset_serves_every_entry (fs0 : filesystem) (root : string)
    (entries : list string) (self : Dataset.ImageFileOrDirectory) :
  os_listdir fs0 root = Ok entries ->
  Dataset.__init__ fs0 root = Ok self ->
  (forall name, name ∈ entries ->
     exists i : nat,
       i < Dataset.__len__ self /\
       forall fs, getitem fs self (Z.of_nat i)
                  = (img ← load_image fs (os_path_join root name);
                     mret (img, os_path_join root name))) /\
  (forall index, Dataset.valid_index self index ->
     exists name,
       name ∈ entries /\
       forall fs, getitem fs self index
                  = (img ← load_image fs (os_path_join root name);
                     mret (img, os_path_join root name))).
Proof.
  intros Hls Hinit. unfold os_listdir in Hls.
  destruct (init_inv _ _ _ Hinit) as [(es & Hp & ->)|(content & Hp & ->)];
    rewrite Hp in Hls; [|discriminate].
  inversion Hls; subst es. split.
  - intros name Hin.
    assert (name ∈ sorted entries) as Hin' by (rewrite sorted_Permutation; exact Hin).
    apply list_elem_of_lookup in Hin'. destruct Hin' as [i Hi].
    exists i. split; [simpl; eapply lookup_lt_Some; exact Hi|].
    intros fs. simpl. rewrite (py_getitem_nat _ _ _ Hi). reflexivity.
  - intros index Hvalid.
    destruct (py_getitem_valid (sorted entries) index Hvalid) as (name & Hget & Hlook).
    exists name. split.
    + rewrite <- (sorted_Permutation entries).
      eapply list_elem_of_lookup_2. exact Hlook.
    + intros fs. simpl. rewrite Hget. reflexivity.
Qed.

End DatasetIndexing.

Lemma getitem_directory_index_out_of_range_witness :
  Dataset.__getitem__ demo_decode demo_rgb2lab (fun x : Z => x) demo_fs
    (Dataset.DirDataset "imgs" ["a.png"; "b.png"]) 2
  = Raise (IndexError "list index out of range").
Proof.
  refine (proj1 (proj2 (getitem_directory_index_out_of_range demo_decode
                          demo_rgb2lab (fun x : Z => x) demo_fs demo_fs "imgs"
                          (Dataset.DirDataset "imgs" ["a.png"; "b.png"]) 2%Z
                          _ _ _)) _).
  - vm_compute. reflexivity.
  - vm_compute. reflexivity.
  - unfold Dataset.valid_index. simpl. lia.
  - lia.
Defined.

Lemma getitem_file_mode_ignores_index_witness :
  Dataset.__getitem__ demo_decode demo_rgb2lab (fun x : Z => x) demo_fs
    (Dataset.FileDataset "photo.png") 7
  = Dataset.__getitem__ demo_decode demo_rgb2lab (fun x : Z => x) demo_fs
      (Dataset.FileDataset "photo.png") 0.
Proof.
  refine (proj2 (proj2 (getitem_file_mode_ignores_index demo_decode demo_rgb2lab
                   (fun x : Z => x) demo_fs demo_fs "photo.png"
                   (Dataset.FileDataset "photo.png") _ _) 7%Z)).
  - vm_compute. reflexivity.
  - vm_compute. reflexivity.
Defined.

Lemma getitem_negative_index_witness :
  Dataset.__getitem__ demo_decode demo_rgb2lab (fun x : Z => x) demo_fs
    (Dataset.DirDataset "imgs" ["a.png"; "b.png"]) (-1)
  = Dataset.__getitem__ demo_decode demo_rgb2lab (fun x : Z => x) demo_fs
      (Dataset.DirDataset "imgs" ["a.png"; "b.png"]) 1.
Proof.
  apply (getitem_negative_index demo_decode demo_rgb2lab (fun x : Z => x) demo_fs
           (Dataset.DirDataset "imgs" ["a.png"; "b.png"]) 1).
  simpl. lia.
Defined.

Lemma directory_dataset_serves_every_entry_witness :
  exists i : nat,
    i < 2 /\
    Dataset.__getitem__ demo_decode demo_rgb2lab (fun x : Z => x) demo_fs
      (Dataset.DirDataset "imgs" (sorted ["b.png"; "a.png"])) (Z.of_nat i)
    = Ok (mk_ndarray [3; 1; 1] [4; 5; 6]%Z, "imgs/b.png").
Proof.
  destruct (proj1 (directory_dataset_serves_every_entry demo_decode demo_rgb2lab
                     (fun x : Z => x) demo_fs "imgs" ["b.png"; "a.png"]
                     (Dataset.DirDataset "imgs" (sorted ["b.png"; "a.png"]))
                     ltac:(vm_compute; reflexivity)
                     ltac:(vm_compute; reflexivity))
                  "b.png" ltac:(apply list_elem_of_In; simpl; auto))
    as (i & Hi & Hget).
  exists i. split; [exact Hi|]. rewrite Hget. vm_compute. reflexivity.
Defined.

(** ** [run_evaluation.py]: which command lines are accepted *)

Section AcceptedArguments.
Import RunEvaluation.

Lemma attribute_present (args : gmap string value) (name : string) :
  dom args = namespace_attributes ->
  In name (dest <$> parser) ->
  exists v, args !! name = Some v.
Proof.
  intros Hdom Hin. apply elem_of_dom. rewrite Hdom.
  apply elem_of_list_to_set, list_elem_of_In, Hin.
Qed.

Ltac attribute args Hdom name v H :=
  destruct (attribute_present args name Hdom ltac:(simpl; tauto)) as [v H].

Ltac four_attributes args Hdom n1 n2 n3 n4 v1 v2 v3 v4 H1 H2 H3 H4 :=
  attribute args Hdom n1 v1 H1; attribute args Hdom n2 v2 H2;
  attribute args Hdom n3 v3 H3; attribute args Hdom n4 v4 H4.

Lemma validate_inputs_errors (args : gmap string value) (e : exn) :
  dom args = namespace_attributes ->
  validate_inputs args = Raise e -> exists msg, e = ValueError msg.
Proof.
  intros Hdom.
  four_attributes args Hdom "input_image" "input_dir" "output_image" "output_dir"
    v_ii v_id v_oi v_od Hii Hid Hoi Hod.
  unfold validate_inputs, attr_is_none, attr_is_not_none, py_and, getattr.
  rewrite Hii, Hid, Hoi, Hod. simpl.
  destruct (is_None v_ii), (is_None v_id), (is_None v_oi), (is_None v_od); simpl;
    intros H; try discriminate H; inversion H; eauto.
Qed.

(** X5. The checks on the input and output options pass exactly when one of
    [--input-image] and [--input-dir] is given, not both, together with the
    matching [--output-image] or [--output-dir]; otherwise they raise
    [ValueError]. *)
Theorem validate_inputs_accepts (args : gmap string value) :
  dom args = namespace_attributes ->
  (validate_inputs args = Ok tt <->
   (supplied args "input_image" = true /\ supplied args "input_dir" = false /\
    supplied args "output_image" = true) \/
   (supplied args "input_image" = false /\ supplied args "input_dir" = true /\
    supplied args "output_dir" = true)) /\
  (forall e, validate_inputs args = Raise e -> exists msg, e = ValueError msg).
Proof.
  intros Hdom.
  four_attributes args Hdom "input_image" "input_dir" "output_image" "output_dir"
    v_ii v_id v_oi v_od Hii Hid Hoi Hod.
  unfold validate_inputs, attr_is_none, attr_is_not_none, py_and, getattr, supplied.
  rewrite Hii, Hid, Hoi, Hod. simpl.
  destruct (is_None v_ii), (is_None v_id), (is_None v_oi), (is_None v_od); simpl;
    (split; [split; [intros H; try discriminate H; tauto
                    |intros [(?&?&?)|(?&?&?)]; try discriminate; reflexivity]
            |intros e H; try discriminate H; inversion H; eauto]).
Qed.

(** What a successful validation tells about the weight sources. *)
Lemma validate_sources (args : gmap string value) (pretrained checkpointed : bool) :
  dom args = namespace_attributes ->
  validate args = Ok (pretrained, checkpointed) ->
  supplied args "checkpoint" = false /\
  pretrained = supplied args "pretrain_proto" /\
  checkpointed = supplied args "checkpoint_dir" /\
  pretrained = negb checkpointed.
Proof.
  intros Hdom.
  pose proof (misspelled_attribute_absent args Hdom) as Hmiss.
  four_attributes args Hdom "pretrain_proto" "pretrain_model" "checkpoint"
    "checkpoint_dir" pp pm ck cdir Hpp Hpm Hck Hcd.
  unfold validate.
  destruct (validate_inputs args) as [[]|e0]; simpl; [|discriminate].
  unfold validate_pretrain, validate_checkpoint, select_source,
    attr_is_none, attr_is_not_none, py_and, py_or, getattr, supplied.
  rewrite Hpp, Hpm, Hck, Hcd, Hmiss. simpl.
  destruct (is_None pp), (is_None pm), (is_None ck), (is_None cdir); simpl;
    intros H; try discriminate H; inversion H; subst; tauto.
Qed.

(** X6. Argument validation as a whole succeeds exactly for these command
    lines: inputs and outputs accepted by the first checks,
    [--pretrain-proto] and [--pretrain-model] both given or both absent,
    [--checkpoint] absent, and exactly one of pretrained weights and
    [--checkpoint-dir]; the result tells which of the two it is.  Every
    failure is a [ValueError] or the [AttributeError] for [checkoint_dir]. *)
Theorem validate_accepts (args : gmap string value) (pretrained checkpointed : bool) :
  dom args = namespace_attributes ->
  (validate args = Ok (pretrained, checkpointed) <->
   validate_inputs args = Ok tt /\
   supplied args "pretrain_proto" = supplied args "pretrain_model" /\
   supplied args "checkpoint" = false /\
   pretrained = supplied args "pretrain_proto" /\
   checkpointed = supplied args "checkpoint_dir" /\
   pretrained = negb checkpointed) /\
  (forall e, validate args = Raise e ->
     (exists msg, e = ValueError msg) \/ e = AttributeError "checkoint_dir").
Proof.
  intros Hdom.
  pose proof (misspelled_attribute_absent args Hdom) as Hmiss.
  four_attributes args Hdom "pretrain_proto" "pretrain_model" "checkpoint"
    "checkpoint_dir" pp pm ck cdir Hpp Hpm Hck Hcd.
  unfold validate.
  destruct (validate_inputs args) as [[]|e0] eqn:Hinputs; simpl.
  2:{ split.
      - split; [discriminate|]. intros (H & _). discriminate H.
      - intros e H. inversion H; subst e. left.
        apply (validate_inputs_errors args e0 Hdom Hinputs). }
  unfold validate_pretrain, validate_checkpoint, select_source,
    attr_is_none, attr_is_not_none, py_and, py_or, getattr, supplied.
  rewrite Hpp, Hpm, Hck, Hcd, Hmiss. simpl.
  destruct (is_None pp), (is_None pm), (is_None ck), (is_None cdir); simpl;
    (split;
     [split;
      [intros H; try discriminate H; inversion H; subst; tauto
      |intros (_ & H1 & H2 & -> & -> & H3); try discriminate; reflexivity]
     |intros e H; try discriminate H; inversion H; eauto]).
Qed.

End AcceptedArguments.

Lemma validate_inputs_accepts_witness :
  RunEvaluation.validate_inputs RunEvaluation.demo_args = Ok tt.
Proof.
  apply (proj1 (validate_inputs_accepts RunEvaluation.demo_args
                  ltac:(vm_compute; reflexivity))).
  left. vm_compute. auto.
Defined.

Lemma validate_accepts_witness :
  RunEvaluation.validate demo_args_directory = Ok (false, true).
Proof.
  apply (proj1 (validate_accepts demo_args_directory false true
                  ltac:(vm_compute; reflexivity))).
  vm_compute. repeat split; reflexivity.
Defined.

(** ** [run_evaluation.py]: the effects of the main block *)

Section MainEffects.
Import RunEvaluation.

Lemma io_bind_trace {A B : Type} (m : io A) (k : A -> io B) (ev : event) :
  ev ∈ trace (m ≫= k) ->
  ev ∈ trace m \/ exists a, outcome m = Ok a /\ ev ∈ trace (k a).
Proof.
  destruct m as [t [a|e]]; simpl.
  - destruct (k a) as [t' r] eqn:Hk. simpl. intros Hin.
    apply elem_of_app in Hin. destruct Hin as [Hin|Hin]; [left; exact Hin|].
    right. exists a. rewrite Hk. auto.
  - intros Hin. left. exact Hin.
Qed.

Lemma io_bind_ok {A B : Type} (t : list event) (a : A) (k : A -> io B) :
  IO t (Ok a) ≫= k = IO (t ++ trace (k a)) (outcome (k a)).
Proof. simpl. destruct (k a); reflexivity. Qed.

Lemma io_bind_raise {A B : Type} (t : list event) (e : exn) (k : A -> io B) :
  IO t (Raise e) ≫= k = IO t (Raise e).
Proof. reflexivity. Qed.

Lemma lift_bind {A B : Type} (r : result A) (k : A -> io B) :
  lift r ≫= k = match r with Ok a => k a | Raise e => IO [] (Raise e) end.
Proof. destruct r as [a|e]; simpl; [destruct (k a)|]; reflexivity. Qed.

(** The loop runs the bodies in order and stops at the first that raises. *)
Lemma for_each_all_ok {A : Type} (l : list A) (body : A -> io unit)
    (events : A -> list event) :
  (forall x, x ∈ l -> body x = IO (events x) (Ok tt)) ->
  for_each l body = IO (concat (events <$> l)) (Ok tt).
Proof.
  induction l as [|x l IH]; intros Hall; [reflexivity|].
  simpl. rewrite (Hall x) by left. rewrite io_bind_ok.
  rewrite IH by (intros y Hy; apply Hall; right; exact Hy).
  reflexivity.
Qed.

Lemma for_each_stops {A : Type} (done rest : list A) (bad : A)
    (body : A -> io unit) (events : A -> list event) (t : list event) (e : exn) :
  (forall x, x ∈ done -> body x = IO (events x) (Ok tt)) ->
  body bad = IO t (Raise e) ->
  for_each (done ++ bad :: rest) body = IO (concat (events <$> done) ++ t) (Raise e).
Proof.
  induction done as [|x done IH]; intros Hall Hbad.
  - simpl. rewrite Hbad. reflexivity.
  - simpl. rewrite (Hall x) by left. rewrite io_bind_ok.
    rewrite IH; [|intros y Hy; apply Hall; right; exact Hy|exact Hbad].
    simpl. rewrite app_assoc. reflexivity.
Qed.

Lemma for_each_trace {A : Type} (l : list A) (body : A -> io unit) (ev : event) :
  ev ∈ trace (for_each l body) -> exists x, x ∈ l /\ ev ∈ trace (body x).
Proof.
  induction l as [|x l IH]; simpl; intros Hin.
  - apply elem_of_nil in Hin. contradiction.
  - apply io_bind_trace in Hin. destruct Hin as [Hin|(_ & _ & Hin)].
    + exists x. split; [left|exact Hin].
    + destruct (IH Hin) as (y & Hy & Hev). exists y. split; [right; exact Hy|exact Hev].
Qed.

Lemma trace_lift {A : Type} (r : result A) (ev : event) : ev ∈ trace (lift r) -> False.
Proof. simpl. apply elem_of_nil. Qed.

Lemma trace_call {A : Type} (ev0 : event) (r : result A) (ev : event) :
  ev ∈ trace (call ev0 r) -> ev = ev0.
Proof. simpl. intros Hin. apply list_elem_of_singleton in Hin. exact Hin. Qed.

Lemma trace_mret {A : Type} (a : A) (ev : event) : ev ∈ trace (mret a : io A) -> False.
Proof. simpl. apply elem_of_nil. Qed.

Ltac split_trace H :=
  repeat match type of H with
         | _ ∈ trace (_ ≫= _) =>
             apply io_bind_trace in H; destruct H as [H|(? & _ & H)]
         | _ ∈ trace (lift _) => apply trace_lift in H; contradiction
         | _ ∈ trace (mret _) => apply trace_mret in H; contradiction
         | _ ∈ trace (call _ _) => apply trace_call in H; subst
         | _ ∈ trace (if ?c then _ else _) => destruct c
         end.

(** The prediction phase only creates the output directory, prints progress
    and predicts images. *)
Lemma predict_images_events (env : environment) (args : gmap string value)
    (ev : event) :
  ev ∈ trace (predict_images env args) -> is_prediction_event ev = true.
Proof.
  unfold predict_images. intros H. split_trace H; try reflexivity.
  apply for_each_trace in H. destruct H as (image & _ & H).
  split_trace H; reflexivity.
Qed.

(** X7. Whenever the main block calls [model.load], the path it loads is the
    one [find_latest_checkpoint] returned for [--checkpoint-dir], looked up
    just before, and [--checkpoint] was not given: the assignment
    [checkpoint_path = args.checkpoint] is never reached. *)
Theorem model_load_only_latest_checkpoint (env : environment)
    (args : gmap string value) (path : value) :
  dom args = namespace_attributes ->
  EvModelLoad path ∈ trace (main env args) ->
  supplied args "checkpoint" = false /\
  exists dir,
    args !! "checkpoint_dir" = Some dir /\
    is_None dir = false /\
    model_find_latest_checkpoint env dir = Ok path /\
    EvFindLatestCheckpoint dir ∈ trace (main env args).
Proof.
  intros Hdom Hin. unfold main in *. rewrite lift_bind in *.
  destruct (validate args) as [[pretrained checkpointed]|e] eqn:Hval.
  2:{ apply elem_of_nil in Hin. contradiction. }
  apply (validate_sources args pretrained checkpointed Hdom) in Hval.
  destruct Hval as (Hck & Hp & Hc & Hpc).
  split; [exact Hck|]. simpl in Hin |- *.
  destruct (attribute_present args "config" Hdom ltac:(simpl; tauto)) as [cfg Hcfg].
  destruct (attribute_present args "pretrain_proto" Hdom ltac:(simpl; tauto)) as [pp Hpp].
  destruct (attribute_present args "pretrain_model" Hdom ltac:(simpl; tauto)) as [pm Hpm].
  destruct (attribute_present args "checkpoint" Hdom ltac:(simpl; tauto)) as [ck Hckv].
  destruct (attribute_present args "checkpoint_dir" Hdom ltac:(simpl; tauto)) as [cdir Hcd].
  unfold supplied in Hck, Hc. rewrite Hckv in Hck. rewrite Hcd in Hc.
  apply negb_false_iff in Hck.
  destruct (load_model env args pretrained checkpointed) as [t r] eqn:Hload.
  assert (EvModelLoad path ∈ t ->
          is_None cdir = false /\
          model_find_latest_checkpoint env cdir = Ok path /\
          EvFindLatestCheckpoint cdir ∈ t) as Hloaded.
  { revert Hload. unfold load_model, getattr.
    rewrite Hcfg, Hpp, Hpm, Hckv, Hcd. simpl.
    destruct (config_get_config env cfg) as [[]|e1]; simpl.
    2:{ intros H; inversion H; subst. intros Hev.
        apply list_elem_of_singleton in Hev. discriminate Hev. }
    subst pretrained. rewrite Hpc. destruct checkpointed; simpl.
    - rewrite Hck. simpl. rewrite <- Hc. simpl.
      destruct (model_find_latest_checkpoint env cdir) as [latest|e2]; simpl.
      + intros H; inversion H; subst. intros Hev.
        apply elem_of_cons in Hev. destruct Hev as [Hev|Hev]; [discriminate Hev|].
        apply elem_of_cons in Hev. destruct Hev as [Hev|Hev]; [discriminate Hev|].
        apply list_elem_of_singleton in Hev. inversion Hev; subst.
        split; [symmetry in Hc; apply negb_true_iff in Hc; exact Hc|].
        split; [reflexivity|]. right. left.
      + intros H; inversion H; subst. intros Hev.
        apply elem_of_cons in Hev. destruct Hev as [Hev|Hev]; [discriminate Hev|].
        apply list_elem_of_singleton in Hev. discriminate Hev.
    - destruct (model_init_from_caffe env pp pm) as [[]|e2]; simpl;
        intros H; inversion H; subst; intros Hev;
        (apply elem_of_cons in Hev; destruct Hev as [Hev|Hev]; [discriminate Hev|]);
        apply list_elem_of_singleton in Hev; discriminate Hev. }
  assert (EvModelLoad path ∈ t) as Ht.
  { destruct r as [[]|e1]; simpl in Hin.
    - destruct (predict_images env args) as [t' r'] eqn:Hpred. simpl in Hin.
      apply elem_of_app in Hin. destruct Hin as [Hin|Hin]; [exact Hin|].
      assert (EvModelLoad path ∈ trace (predict_images env args)) as Hev
        by (rewrite Hpred; exact Hin).
      apply predict_images_events in Hev. discriminate Hev.
    - exact Hin. }
  destruct (Hloaded Ht) as (Hnone & Hfind & Hfound).
  exists cdir. split; [exact Hcd|]. split; [exact Hnone|]. split; [exact Hfind|].
  destruct r as [[]|e1]; simpl.
  - destruct (predict_images env args) as [t' r']. simpl.
    apply elem_of_app. left. exact Hfound.
  - exact Hfound.
Qed.

Lemma loop_body_events (env : environment) (args : gmap string value)
    (d o : string) (size verbose : value) (image : string) :
  args !! "input_size" = Some size ->
  args !! "verbose" = Some verbose ->
  (verbose0 ← lift (getattr args "verbose");
   _ ← (if truthy verbose0
        then call (EvPrint ("processing '" +:+ image +:+ "'")) (Ok tt)
        else mret tt);
   in_image ← lift (py_path_join (VStr d) image);
   out_image ← lift (py_path_join (VStr o) image);
   input_size ← lift (getattr args "input_size");
   call (EvPredictImage in_image input_size out_image)
        (predict_image env in_image input_size out_image))
  = IO (iteration_events (truthy verbose) d o size image)
       (predict_image env (VStr (os_path_join d image)) size
                      (VStr (os_path_join o image))).
Proof.
  intros Hsize Hverbose. unfold getattr, iteration_events.
  rewrite Hsize, Hverbose. simpl. destruct (truthy verbose); reflexivity.
Qed.

(** X8. In directory mode the prediction phase creates the output directory
    only if it does not exist yet, then handles the entries of
    [os.listdir(input_dir)] one by one in the order listed: it predicts
    [join(input_dir, name)] into [join(output_dir, name)], printing a
    progress line first when [--verbose] is set.  If every prediction
    succeeds, all entries are handled; if the prediction of one entry raises,
    the loop stops there and the later entries are not touched. *)
Theorem predict_images_directory_mode (env : environment)
    (args : gmap string value) (d o : string) (size verbose : value)
    (present : bool) (images : list string) :
  args !! "input_image" = Some VNone ->
  args !! "input_dir" = Some (VStr d) ->
  args !! "output_dir" = Some (VStr o) ->
  args !! "input_size" = Some size ->
  args !! "verbose" = Some verbose ->
  env_path_exists env (VStr o) = Ok present ->
  (present = false -> env_mkdir env (VStr o) = Ok tt) ->
  env_listdir env (VStr d) = Ok images ->
  ((forall image, image ∈ images ->
      predict_image env (VStr (os_path_join d image)) size
                        (VStr (os_path_join o image)) = Ok tt) ->
   predict_images env args
   = IO ((if present then [] else [EvMkdir (VStr o)]) ++
         concat (iteration_events (truthy verbose) d o size <$> images))
        (Ok tt)) /\
  (forall done bad rest e,
     images = (done ++ bad :: rest)%list ->
     (forall image, image ∈ done ->
        predict_image env (VStr (os_path_join d image)) size
                          (VStr (os_path_join o image)) = Ok tt) ->
     predict_image env (VStr (os_path_join d bad)) size
                       (VStr (os_path_join o bad)) = Raise e ->
     predict_images env args
     = IO ((if present then [] else [EvMkdir (VStr o)]) ++
           concat (iteration_events (truthy verbose) d o size <$> done) ++
           iteration_events (truthy verbose) d o size bad)
          (Raise e)).
Proof.
  intros Hii Hid Hod Hsize Hverbose Hexists Hmkdir Hls.
  assert (predict_images env args
          = match for_each images (fun image =>
                    verbose0 ← lift (getattr args "verbose");
                    _ ← (if truthy verbose0
                         then call (EvPrint ("processing '" +:+ image +:+ "'")) (Ok tt)
                         else mret tt);
                    in_image ← lift (py_path_join (VStr d) image);
                    out_image ← lift (py_path_join (VStr o) image);
                    input_size ← lift (getattr args "input_size");
                    call (EvPredictImage in_image input_size out_image)
                         (predict_image env in_image input_size out_image)) with
            | IO t r => IO ((if present then [] else [EvMkdir (VStr o)]) ++ t) r
            end) as Hunfold.
  { unfold predict_images, getattr. rewrite Hii, Hid, Hod. simpl.
    rewrite Hexists, Hls. simpl. destruct present; simpl.
    - destruct (for_each images _); reflexivity.
    - rewrite (Hmkdir eq_refl). simpl. destruct (for_each images _); reflexivity. }
  split.
  - intros Hall. rewrite Hunfold.
    rewrite (for_each_all_ok images _ (iteration_events (truthy verbose) d o size)).
    + reflexivity.
    + intros image Himage.
      rewrite (loop_body_events env args d o size verbose image Hsize Hverbose).
      rewrite (Hall image Himage). reflexivity.
  - intros done bad rest e Himages Hdone Hbad. rewrite Hunfold, Himages.
    rewrite (for_each_stops done rest bad _
               (iteration_events (truthy verbose) d o size)
               (iteration_events (truthy verbose) d o size bad) e).
    + reflexivity.
    + intros image Himage.
      rewrite (loop_body_events env args d o size verbose image Hsize Hverbose).
      rewrite (Hdone image Himage). reflexivity.
    + rewrite (loop_body_events env args d o size verbose bad Hsize Hverbose).
      rewrite Hbad. reflexivity.
Qed.

End MainEffects.

Lemma model_load_only_latest_checkpoint_witness :
  supplied demo_args_directory "checkpoint" = false /\
  RunEvaluation.model_find_latest_checkpoint RunEvaluation.demo_environment
    (RunEvaluation.VStr "ckpt") = Ok (RunEvaluation.VStr "ckpt/latest.tar").
Proof.
  destruct (model_load_only_latest_checkpoint RunEvaluation.demo_environment
              demo_args_directory (RunEvaluation.VStr "ckpt/latest.tar")
              ltac:(vm_compute; reflexivity)
              ltac:(apply list_elem_of_In; vm_compute; tauto))
    as (Hck & dir & Hdir & _ & Hfind & _).
  split; [exact Hck|].
  vm_compute in Hdir. inversion Hdir; subst dir. exact Hfind.
Defined.

Lemma predict_images_directory_mode_witness :
  RunEvaluation.predict_images RunEvaluation.demo_environment demo_args_directory
  = RunEvaluation.IO
      [RunEvaluation.EvPrint "processing 'a.png'";
       RunEvaluation.EvPredictImage (RunEvaluation.VStr "in/a.png")
         (RunEvaluation.VInt 224) (RunEvaluation.VStr "out/a.png");
       RunEvaluation.EvPrint "processing 'b.png'";
       RunEvaluation.EvPredictImage (RunEvaluation.VStr "in/b.png")
         (RunEvaluation.VInt 224) (RunEvaluation.VStr "out/b.png")]
      (Ok tt).
Proof.
  refine (proj1 (predict_images_directory_mode RunEvaluation.demo_environment
                   demo_args_directory "in" "out" (RunEvaluation.VInt 224)
                   (RunEvaluation.VBool true) true ["a.png"; "b.png"]
                   _ _ _ _ _ _ _ _) _).
  - vm_compute. reflexivity.
  - vm_compute. reflexivity.
  - vm_compute. reflexivity.
  - vm_compute. reflexivity.
  - vm_compute. reflexivity.
  - reflexivity.
  - discriminate.
  - reflexivity.
  - intros image _. reflexivity.
Defined.

(** ** [_predict_image] *)

Example demo_predict_image_runs :
  PredictImage._predict_image PredictImage.demo_imread PredictImage.demo_imsave
    PredictImage.demo_resize PredictImage.demo_convert PredictImage.demo_convert
    PredictImage.demo_convert PredictImage.demo_convert PredictImage.demo_model
    (RunEvaluation.VStr "in.png") (RunEvaluation.VInt 224)
    (RunEvaluation.VStr "out.png") = Ok tt.
Proof. reflexivity. Qed.

Example demo_dstack :
  PredictImage.np_dstack (mk_ndarray [1; 2; 1] [50; 51]%Z)
                         (mk_ndarray [1; 2; 2] [7; 8; 9; 10]%Z)
  = Ok (mk_ndarray [1; 2; 3] [50; 7; 8; 51; 9; 10]%Z).
Proof. reflexivity. Qed.

Example demo_slice :
  PredictImage.np_slice_first_channel (mk_ndarray [1; 2; 3] [50; 7; 8; 51; 9; 10]%Z)
  = Ok (mk_ndarray [1; 2; 1] [50; 51]%Z).
Proof. reflexivity. Qed.

Section Chunks.
Context {A : Type}.
Local Open Scope list_scope.

(** Cutting a list into [n] consecutive chunks of [k] and joining them gives
    the list back. *)
Lemma chunks_join (k n : nat) (l : list A) :
  length l = n * k ->
  (p ← seq 0 n; take k (drop (p * k) l)) = l.
Proof.
  revert l. induction n as [|n IH]; intros l Hlen.
  - simpl in *. destruct l; [reflexivity|discriminate].
  - change (seq 0 (S n)) with (0 :: seq 1 n).
    rewrite bind_cons, <- fmap_S_seq, list_fmap_bind.
    transitivity (take k l ++ drop k l); [|apply take_drop].
    f_equal.
    assert (length (drop k l) = n * k) as Hlen' by (rewrite length_drop; lia).
    transitivity (p ← seq 0 n; take k (drop (p * k) (drop k l)));
      [|apply IH, Hlen'].
    apply list_bind_ext; [|reflexivity]. intros p. simpl.
    rewrite drop_drop. do 2 f_equal.
Qed.

(** In a join of [n] chunks of length [k] each, the [p]-th chunk sits at
    offset [p * k]. *)
Lemma chunk_of_join (k n : nat) (f : nat -> list A) (s p : nat) :
  (forall q, q < n -> length (f (s + q)) = k) ->
  p < n ->
  take k (drop (p * k) (q ← seq s n; f q)) = f (s + p).
Proof.
  revert s p. induction n as [|n IH]; intros s p Hlen Hp; [lia|].
  simpl seq. rewrite bind_cons.
  pose proof (Hlen 0 ltac:(lia)) as H0. rewrite Nat.add_0_r in H0.
  destruct p as [|p].
  - simpl. rewrite Nat.add_0_r. apply take_app_length'. symmetry. exact H0.
  - rewrite drop_app_ge by (simpl; lia).
    replace (S p * k - length (f s)) with (p * k) by (simpl; lia).
    rewrite (IH (S s) p).
    + f_equal. lia.
    + intros q Hq. replace (S s + q) with (s + S q) by lia. apply Hlen. lia.
    + lia.
Qed.

Lemma length_join (k n : nat) (f : nat -> list A) (s : nat) :
  (forall q, q < n -> length (f (s + q)) = k) ->
  length (q ← seq s n; f q) = n * k.
Proof.
  revert s. induction n as [|n IH]; intros s Hlen; [reflexivity|].
  simpl seq. rewrite bind_cons, length_app.
  pose proof (Hlen 0 ltac:(lia)) as H0. rewrite Nat.add_0_r in H0.
  rewrite H0, (IH (S s)); [simpl; lia|].
  intros q Hq. replace (S s + q) with (s + S q) by lia. apply Hlen. lia.
Qed.

Lemma length_chunk (k n p : nat) (l : list A) :
  length l = n * k -> p < n -> length (take k (drop (p * k) l)) = k.
Proof.
  intros Hlen Hp. rewrite length_take, length_drop. nia.
Qed.

End Chunks.

Section SliceAndStack.
Context {A : Type}.
Import PredictImage.
Local Open Scope list_scope.

(** The first channel of an [h x w x c] array with [c >= 1]. *)
Lemma slice_first_channel_shape (a : ndarray A) (h w c : nat) :
  shape a = [h; w; c] -> 1 <= c -> well_formed a ->
  exists l,
    np_slice_first_channel a = Ok l /\
    shape l = [h; w; 1] /\
    well_formed l /\
    forall p, p < h * w -> data l !! p = data a !! (p * c).
Proof.
  intros Hshape Hc Hwf. unfold well_formed in Hwf.
  rewrite Hshape in Hwf. unfold np_size in Hwf. simpl in Hwf.
  set (f := fun p : nat => take 1 (drop (p * c) (data a))).
  assert (np_slice_first_channel a
          = Ok (mk_ndarray [h; w; 1] (seq 0 (h * w) ≫= f))) as Hslice.
  { unfold np_slice_first_channel. rewrite Hshape.
    replace (Nat.min 1 c) with 1 by lia. unfold np_size. simpl foldr.
    rewrite !Nat.mul_1_r. reflexivity. }
  assert (forall q, q < h * w -> length (f (0 + q)) = 1) as Hlen.
  { intros q Hq. unfold f. simpl. rewrite length_take, length_drop. nia. }
  assert (length (seq 0 (h * w) ≫= f) = h * w * 1) as Hjoin
    by (apply (length_join 1 (h * w) f 0 Hlen)).
  exists (mk_ndarray [h; w; 1] (seq 0 (h * w) ≫= f)).
  split; [exact Hslice|]. split; [reflexivity|]. split.
  - unfold well_formed, np_size. cbn [data shape foldr]. rewrite Hjoin. lia.
  - intros p Hp. cbn [data].
    assert (take 1 (drop (p * 1) (seq 0 (h * w) ≫= f)) = f (0 + p)) as Hchunk
      by (apply (chunk_of_join 1 (h * w) f 0 p Hlen Hp)).
    assert ((seq 0 (h * w) ≫= f) !! p = f p !! 0) as ->.
    { change (f p) with (f (0 + p)). rewrite <- Hchunk.
      rewrite lookup_take_lt by lia.
      rewrite lookup_drop. f_equal. lia. }
    unfold f. rewrite lookup_take_lt by lia. rewrite lookup_drop.
    f_equal. lia.
Qed.

(** Stacking a one-channel array in front of another one: the result has
    the channels of both, and its first channel is the first array. *)
Lemma dstack_first_channel (a b : ndarray A) (h w cb : nat) :
  shape a = [h; w; 1] -> well_formed a ->
  shape b = [h; w; cb] -> well_formed b ->
  exists r,
    np_dstack a b = Ok r /\
    shape r = [h; w; 1 + cb] /\
    well_formed r /\
    np_slice_first_channel r = Ok a /\
    forall p j, p < h * w -> j < cb ->
      data r !! (p * (1 + cb) + 1 + j) = data b !! (p * cb + j).
Proof.
  intros Ha Hwfa Hb Hwfb. unfold well_formed in Hwfa, Hwfb.
  rewrite Ha in Hwfa. rewrite Hb in Hwfb.
  unfold np_size in Hwfa, Hwfb. simpl in Hwfa, Hwfb.
  set (f := fun p : nat =>
              take 1 (drop (p * 1) (data a)) ++ take cb (drop (p * cb) (data b))).
  set (D := seq 0 (h * w) ≫= f).
  assert (np_dstack a b = Ok (mk_ndarray [h; w; 1 + cb] D)) as Hstack.
  { unfold np_dstack, np_atleast_3d. rewrite Ha, Hb. cbn [shape]. rewrite Ha, Hb.
    cbn [length Nat.eqb negb].
    destruct (decide (h = h /\ w = w /\ @nil nat = [])) as [_|Hne];
      [|exfalso; apply Hne; auto].
    unfold np_size. simpl foldr. rewrite !Nat.mul_1_r. reflexivity. }
  assert (forall q, q < h * w -> length (f (0 + q)) = 1 + cb) as Hlen.
  { intros q Hq. unfold f. simpl.
    rewrite length_app, !length_take, !length_drop. nia. }
  assert (length D = h * w * (1 + cb)) as Hjoin
    by (apply (length_join (1 + cb) (h * w) f 0 Hlen)).
  assert (forall p, p < h * w ->
            take (1 + cb) (drop (p * (1 + cb)) D) = f p) as Hchunk.
  { intros p Hp. apply (chunk_of_join (1 + cb) (h * w) f 0 p Hlen Hp). }
  exists (mk_ndarray [h; w; 1 + cb] D).
  split; [exact Hstack|]. split; [reflexivity|]. split; [|split].
  - unfold well_formed, np_size. cbn [data shape foldr]. rewrite Hjoin. lia.
  - unfold np_slice_first_channel. cbn [shape data].
    replace (Nat.min 1 (1 + cb)) with 1 by lia.
    unfold np_size. simpl foldr. rewrite !Nat.mul_1_r.
    destruct a as [sa da]. cbn [shape data] in *. subst sa. do 2 f_equal.
    transitivity (seq 0 (h * w) ≫= (fun p => take 1 (drop (p * 1) da)));
      [|apply chunks_join; lia].
    apply Forall_bind_ext. apply Forall_forall. intros p Hp.
    apply elem_of_seq in Hp.
    replace (take 1 (drop (p * (1 + cb)) D))
      with (take 1 (take (1 + cb) (drop (p * (1 + cb)) D)))
      by (rewrite take_take; f_equal; lia).
    rewrite Hchunk by lia. unfold f.
    apply take_app_length'. rewrite length_take, length_drop. nia.
  - intros p j Hp Hj. cbn [data].
    assert (D !! (p * (1 + cb) + 1 + j) = f p !! (1 + j)) as ->.
    { rewrite <- (Hchunk p Hp). rewrite lookup_take_lt by lia.
      rewrite lookup_drop. f_equal. lia. }
    unfold f. rewrite lookup_app_r by (rewrite length_take, length_drop; nia).
    replace (1 + j - length (take 1 (drop (p * 1) (data a)))) with j
      by (rewrite length_take, length_drop; nia).
    rewrite lookup_take_lt by lia. rewrite lookup_drop. reflexivity.
Qed.

End SliceAndStack.

Section PredictImageProperties.
Import RunEvaluation PredictImage.
Context {Px F T : Type}.
Variable imread : value -> result (ndarray Px).
Variable imsave : value -> ndarray Px -> result unit.
Variable resize : forall A : Type, ndarray A -> value -> value -> result (ndarray A).
Variable rgb_to_lab : ndarray Px -> result (ndarray F).
Variable lab_to_rgb : ndarray F -> result (ndarray Px).
Variable numpy_to_torch : ndarray F -> result T.
Variable torch_to_numpy : T -> result (ndarray F).
Variable model_predict : T -> result T.

Local Abbreviation predict_image :=
  (_predict_image imread imsave resize rgb_to_lab lab_to_rgb numpy_to_torch
     torch_to_numpy model_predict).

(** X10. When the input reads as an [h x w x c] image and every external
    step succeeds, with the prediction resized back to [h x w], the Lab image
    that [_predict_image] converts and saves has the height and width of the
    input and one channel more than the prediction; its first channel is the
    lightness channel of the full-size input (not of the resized copy given to
    the network), and its other channels are the resized prediction. *)
Theorem predict_image_keeps_size_and_lightness
    (input_image input_size output_image : value)
    (img_rgb img_rgb_resized : ndarray Px)
    (img_lab img_lab_resized l_resized ab_pred ab_orig : ndarray F)
    (l_batch prediction : T) (h w c cl cab : nat) :
  imread input_image = Ok img_rgb ->
  shape img_rgb = [h; w; c] ->
  resize Px img_rgb input_size input_size = Ok img_rgb_resized ->
  rgb_to_lab img_rgb = Ok img_lab ->
  shape img_lab = [h; w; cl] -> 1 <= cl -> well_formed img_lab ->
  rgb_to_lab img_rgb_resized = Ok img_lab_resized ->
  np_slice_first_channel img_lab_resized = Ok l_resized ->
  numpy_to_torch l_resized = Ok l_batch ->
  model_predict l_batch = Ok prediction ->
  torch_to_numpy prediction = Ok ab_pred ->
  resize F ab_pred (VInt (Z.of_nat h)) (VInt (Z.of_nat w)) = Ok ab_orig ->
  shape ab_orig = [h; w; cab] -> well_formed ab_orig ->
  exists img_lab_pred,
    predict_image input_image input_size output_image
      = (img_rgb_pred ← lab_to_rgb img_lab_pred;
         imsave output_image img_rgb_pred) /\
    shape img_lab_pred = [h; w; 1 + cab] /\
    well_formed img_lab_pred /\
    np_slice_first_channel img_lab_pred = np_slice_first_channel img_lab /\
    (forall p, p < h * w ->
       data img_lab_pred !! (p * (1 + cab)) = data img_lab !! (p * cl)) /\
    (forall p j, p < h * w -> j < cab ->
       data img_lab_pred !! (p * (1 + cab) + 1 + j) = data ab_orig !! (p * cab + j)).
Proof.
  intros Hread Hshape Hresize Hlab Hlabshape Hcl Hlabwf Hlabr Hslice Htorch
    Hpredict Hnumpy Hback Habshape Habwf.
  destruct (slice_first_channel_shape img_lab h w cl Hlabshape Hcl Hlabwf)
    as (l_orig & Hl & Hlshape & Hlwf & Hldata).
  destruct (dstack_first_channel l_orig ab_orig h w cab Hlshape Hlwf Habshape Habwf)
    as (pred & Hstack & Hpshape & Hpwf & Hpslice & Hpdata).
  exists pred. split.
  { unfold _predict_image. rewrite Hread. simpl. rewrite Hresize. simpl.
    unfold unpack_shape3. rewrite Hshape. simpl.
    rewrite Hlab. simpl. rewrite Hlabr. simpl. rewrite Hslice. simpl.
    rewrite Htorch. simpl. rewrite Hpredict. simpl. rewrite Hnumpy. simpl.
    rewrite Hl. simpl. rewrite Hback. simpl. rewrite Hstack. reflexivity. }
  split; [exact Hpshape|]. split; [exact Hpwf|].
  split; [rewrite Hpslice, Hl; reflexivity|]. split; [|exact Hpdata].
  intros p Hp. rewrite <- (Hldata p Hp).
  destruct (slice_first_channel_shape pred h w (1 + cab) Hpshape ltac:(lia) Hpwf)
    as (l' & Hl' & _ & _ & Hl'data).
  rewrite Hpslice in Hl'. inversion Hl'; subst l'.
  symmetry. apply Hl'data, Hp.
Qed.

(** X11. An input that does not read as a three-axis array (a grey-scale
    image, say) makes [_predict_image] raise [ValueError] when the shape is
    unpacked, right after the first resize: neither the model nor [imsave]
    has any influence on the outcome. *)
Theorem predict_image_rejects_other_ranks
    (input_image input_size output_image : value)
    (img_rgb img_rgb_resized : ndarray Px) :
  imread input_image = Ok img_rgb ->
  resize Px img_rgb input_size input_size = Ok img_rgb_resized ->
  length (shape img_rgb) <> 3 ->
  exists msg,
    predict_image input_image input_size output_image = Raise (ValueError msg).
Proof.
  intros Hread Hresize Hrank.
  unfold _predict_image. rewrite Hread. simpl. rewrite Hresize. simpl.
  unfold unpack_shape3.
  destruct (shape img_rgb) as [|h [|w [|c [|x rest]]]]; simpl in *;
    try (eexists; reflexivity).
  lia.
Qed.

End PredictImageProperties.

Lemma predict_image_keeps_size_and_lightness_witness :
  exists img_lab_pred : ndarray Z,
    shape img_lab_pred = [1; 1; 3] /\
    data img_lab_pred !! 0 = Some 50%Z /\
    data img_lab_pred !! 2 = Some 8%Z.
Proof.
  destruct (predict_image_keeps_size_and_lightness
              PredictImage.demo_imread PredictImage.demo_imsave
              PredictImage.demo_resize PredictImage.demo_convert
              PredictImage.demo_convert PredictImage.demo_convert
              PredictImage.demo_convert PredictImage.demo_model
              (RunEvaluation.VStr "in.png") (RunEvaluation.VInt 224)
              (RunEvaluation.VStr "out.png")
              (mk_ndarray [1; 1; 3] [50; 60; 70]%Z)
              (mk_ndarray [1; 1; 3] [50; 60; 70]%Z)
              (mk_ndarray [1; 1; 3] [50; 60; 70]%Z)
              (mk_ndarray [1; 1; 3] [50; 60; 70]%Z)
              (mk_ndarray [1; 1; 1] [50]%Z)
              (mk_ndarray [1; 1; 2] [7; 8]%Z)
              (mk_ndarray [1; 1; 2] [7; 8]%Z)
              (mk_ndarray [1; 1; 1] [50]%Z)
              (mk_ndarray [1; 1; 2] [7; 8]%Z)
              1 1 3 3 2
              ltac:(reflexivity) ltac:(reflexivity) ltac:(reflexivity)
              ltac:(reflexivity) ltac:(reflexivity) ltac:(lia)
              ltac:(reflexivity) ltac:(reflexivity) ltac:(reflexivity)
              ltac:(reflexivity) ltac:(reflexivity) ltac:(reflexivity)
              ltac:(reflexivity) ltac:(reflexivity) ltac:(reflexivity))
    as (pred & _ & Hshape & _ & _ & Hl & Hab).
  exists pred. split; [exact Hshape|]. split.
  - apply (Hl 0). simpl. lia.
  - apply (Hab 0 1); simpl; lia.
Defined.

Lemma predict_image_rejects_other_ranks_witness :
  exists msg,
    PredictImage._predict_image
      PredictImage.demo_imread_gray PredictImage.demo_imsave
      PredictImage.demo_resize PredictImage.demo_convert
      PredictImage.demo_convert PredictImage.demo_convert
      PredictImage.demo_convert PredictImage.demo_model
      (RunEvaluation.VStr "gray.png") (RunEvaluation.VInt 224)
      (RunEvaluation.VStr "out.png") = Raise (ValueError msg).
Proof.
  apply (predict_image_rejects_other_ranks
           PredictImage.demo_imread_gray PredictImage.demo_imsave
           PredictImage.demo_resize PredictImage.demo_convert
           PredictImage.demo_convert PredictImage.demo_convert
           PredictImage.demo_convert PredictImage.demo_model
           (RunEvaluation.VStr "gray.png") (RunEvaluation.VInt 224)
           (RunEvaluation.VStr "out.png")
           (mk_ndarray [1; 2] [50; 60]%Z) (mk_ndarray [1; 2] [50; 60]%Z)
           ltac:(reflexivity) ltac:(reflexivity)).
  simpl. lia.
Defined.

Section PredictionNeedsWeights.
Import RunEvaluation.

(** X12. The main block predicts an image only after the configuration was
    read and the model weights were set up successfully, from exactly one
    source: either [init_from_caffe] with the two pretrain files, or
    [model.load] of the latest checkpoint found in [--checkpoint-dir]. *)
Theorem prediction_needs_weights (env : environment) (args : gmap string value)
    (input size output : value) :
  dom args = namespace_attributes ->
  EvPredictImage input size output ∈ trace (main env args) ->
  exists config,
    args !! "config" = Some config /\
    config_get_config env config = Ok tt /\
    ((exists proto model,
        args !! "pretrain_proto" = Some proto /\
        args !! "pretrain_model" = Some model /\
        model_init_from_caffe env proto model = Ok tt /\
        supplied args "checkpoint_dir" = false) \/
     (exists dir path,
        args !! "checkpoint_dir" = Some dir /\
        model_find_latest_checkpoint env dir = Ok path /\
        model_load env path = Ok tt /\
        supplied args "pretrain_proto" = false)).
Proof.
  intros Hdom Hin. unfold main in *. rewrite lift_bind in *.
  destruct (validate args) as [[pretrained checkpointed]|e] eqn:Hval.
  2:{ apply elem_of_nil in Hin. contradiction. }
  apply (validate_sources args pretrained checkpointed Hdom) in Hval.
  destruct Hval as (Hck & Hp & Hc & Hpc).
  simpl in Hin.
  destruct (attribute_present args "config" Hdom ltac:(simpl; tauto)) as [cfg Hcfg].
  destruct (attribute_present args "pretrain_proto" Hdom ltac:(simpl; tauto)) as [pp Hpp].
  destruct (attribute_present args "pretrain_model" Hdom ltac:(simpl; tauto)) as [pm Hpm].
  destruct (attribute_present args "checkpoint" Hdom ltac:(simpl; tauto)) as [ck Hckv].
  destruct (attribute_present args "checkpoint_dir" Hdom ltac:(simpl; tauto)) as [cdir Hcd].
  exists cfg. split; [exact Hcfg|].
  assert (supplied args "checkpoint_dir" = checkpointed) as Hsc by (symmetry; exact Hc).
  assert (supplied args "pretrain_proto" = pretrained) as Hsp by (symmetry; exact Hp).
  unfold supplied in Hck, Hc. rewrite Hckv in Hck. rewrite Hcd in Hc.
  apply negb_false_iff in Hck.
  revert Hin. unfold load_model, getattr.
  rewrite Hcfg, Hpp, Hpm, Hckv, Hcd. simpl.
  destruct (config_get_config env cfg) as [[]|e1]; simpl.
  2:{ intros Hev. apply list_elem_of_singleton in Hev. discriminate Hev. }
  intros Hin. split; [reflexivity|].
  subst pretrained. rewrite Hpc in Hin. destruct checkpointed; simpl in Hin.
  - right. rewrite Hck in Hin. simpl in Hin. rewrite <- Hc in Hin. simpl in Hin.
    destruct (model_find_latest_checkpoint env cdir) as [latest|e2] eqn:Hfind;
      simpl in Hin.
    + destruct (model_load env latest) as [[]|e3] eqn:Hmodel; simpl in Hin.
      * exists cdir, latest. repeat split; auto.
      * repeat (apply elem_of_cons in Hin; destruct Hin as [Hin|Hin];
                [discriminate Hin|]).
        apply elem_of_nil in Hin. contradiction.
    + repeat (apply elem_of_cons in Hin; destruct Hin as [Hin|Hin];
              [discriminate Hin|]).
      apply elem_of_nil in Hin. contradiction.
  - left.
    destruct (model_init_from_caffe env pp pm) as [[]|e2] eqn:Hinit; simpl in Hin.
    + exists pp, pm. repeat split; auto.
    + repeat (apply elem_of_cons in Hin; destruct Hin as [Hin|Hin];
              [discriminate Hin|]).
      apply elem_of_nil in Hin. contradiction.
Qed.

End PredictionNeedsWeights.

Lemma prediction_needs_weights_witness :
  RunEvaluation.model_load RunEvaluation.demo_environment
    (RunEvaluation.VStr "ckpt/latest.tar") = Ok tt.
Proof.
  destruct (prediction_needs_weights RunEvaluation.demo_environment
              demo_args_directory (RunEvaluation.VStr "in/a.png")
              (RunEvaluation.VInt 224) (RunEvaluation.VStr "out/a.png")
              ltac:(vm_compute; reflexivity)
              ltac:(apply list_elem_of_In; vm_compute; tauto))
    as (config & _ & _ & [(proto & model & _ & _ & _ & Hno)|
                          (dir & path & Hdir & Hfind & Hload & _)]).
  - vm_compute in Hno. discriminate Hno.
  - vm_compute in Hdir. inversion Hdir; subst dir.
    vm_compute in Hfind. inversion Hfind; subst path. exact Hload.
Defined.

(** ** The sample generator of the tests *)

Section RandomSamples.
Import TestModules.
Variable draws : Z -> nat -> nat.

Lemma np_random_choice_members {A : Type} (seed : Z) (a : list A) (size : list nat) :
  a <> [] ->
  exists r,
    np_random_choice draws seed a size = Ok r /\
    shape r = size /\
    well_formed r /\
    Forall (fun v => v ∈ a) (data r).
Proof.
  intros Hne. destruct a as [|x a']; [congruence|].
  unfold np_random_choice. eexists. split; [reflexivity|].
  split; [reflexivity|]. split.
  - unfold well_formed. cbn [data shape]. rewrite length_fmap, length_seq.
    reflexivity.
  - cbn [data]. apply Forall_fmap, Forall_forall. intros k _.
    apply list_elem_of_In, nth_In.
    apply Nat.mod_upper_bound. simpl. lia.
Qed.

Lemma np_arange_members (start stop v : Z) :
  v ∈ np_arange start stop -> (start <= v < stop)%Z.
Proof.
  unfold np_arange. intros Hv. apply list_elem_of_fmap in Hv.
  destruct Hv as (i & -> & Hi). apply elem_of_seq in Hi. lia.
Qed.

(** X13. For a seed that [np.random.seed] accepts (0 to 2**32 - 1), whatever
    the generator delivers, [_random_ab] returns a batch of shape
    [32 x 2 x 100 x 200] whose entries all lie in the safe range: whole
    numbers from 0 to 79.  For any other seed it raises the [ValueError] of
    [np.random.seed] and returns no batch. *)
Theorem random_ab_in_safe_range (seed : Z) :
  ((0 <= seed < 2 ^ 32)%Z ->
   exists ab,
     _random_ab draws seed = Ok ab /\
     shape ab = [32; 2; 100; 200] /\
     well_formed ab /\
     Forall (fun v => v ∈ _AB_SAFE_RANGE /\ (0 <= v < 80)%Z) (data ab)) /\
  (~ (0 <= seed < 2 ^ 32)%Z ->
   _random_ab draws seed
   = Raise (ValueError "Seed must be between 0 and 2**32 - 1")).
Proof.
  unfold _random_ab, np_random_seed. split.
  - intros Hseed.
    destruct (Z.leb_spec 0 seed) as [_|?]; [|lia].
    destruct (Z.ltb_spec seed (2 ^ 32)) as [_|?]; [|lia].
    cbn [andb mbind result_bind].
    destruct (np_random_choice_members seed _AB_SAFE_RANGE
                [_SAMPLE_BATCH_SIZE; 2; _SAMPLE_HEIGHT; _SAMPLE_WIDTH])
      as (ab & Hab & Hshape & Hwf & Hall).
    { intros Hnil. apply (f_equal length) in Hnil. discriminate Hnil. }
    exists ab. split; [exact Hab|]. split; [exact Hshape|]. split; [exact Hwf|].
    eapply Forall_impl; [exact Hall|]. intros v Hv. split; [exact Hv|].
    apply (np_arange_members 0 80 v Hv).
  - intros Hseed.
    destruct (Z.leb_spec 0 seed) as [?|?];
      destruct (Z.ltb_spec seed (2 ^ 32)) as [?|?];
      try reflexivity. lia.
Qed.

End RandomSamples.

Lemma random_ab_in_safe_range_witness :
  exists ab,
    TestModules._random_ab TestModules.demo_draws 0 = Ok ab /\
    shape ab = [32; 2; 100; 200].
Proof.
  destruct (proj1 (random_ab_in_safe_range TestModules.demo_draws 0)
              ltac:(lia))
    as (ab & Hab & Hshape & _).
  exists ab. split; [exact Hab|exact Hshape].
Defined.

(** ** The pixelwise distribution loss *)

Section Loss.
Import Core Reals Lra.
Local Open Scope R_scope.















Local Instance nearer_total : Total nearer.
Proof.
  intros [i x] [j y]. unfold nearer. simpl.
  destruct (Rtotal_order x y) as [Hlt|[Heq|Hgt]]; [left; left; exact Hlt| |right; left; exact Hgt].
  destruct (Nat.le_ge_cases i j); [left|right]; right; split; auto.
Qed.

Local Instance nearer_trans : Transitive nearer.
Proof.
  intros [i x] [j y] [k z]. unfold nearer. simpl.
  intros [H1|[H1 H1']] [H2|[H2 H2']].
  - left. lra.
  - left. lra.
  - left. lra.
  - right. split; [lra|lia].
Qed.

Local Instance nearer_antisym : AntiSymm (=) nearer.
Proof.
  intros [i x] [j y]. unfold nearer. simpl.
  intros [H1|[H1 H1']] [H2|[H2 H2']]; try lra.
  f_equal; [lia|exact H1].
Qed.






End Loss.
